(** * Recipe filter engine and include resolver

    A shallow embedding of [assets/js/recipe-filter.js] and
    [assets/js/includes.js].

    - JavaScript strings are sequences of UTF-16 code units ([list N]).
    - A JavaScript [Set] of strings is a duplicate-free list in insertion
      order.
    - For the recipe filter a DOM node is identified by a natural number;
      the module-level DOM references of the script are [option]s ([None]
      is [null]).
    - For the include resolver the document is a tree, an element is
      referred to by its place in the tree, and the HTML parser of the
      browser is a parameter.
    - A handler either completes or throws; the page state reached at the
      point of the throw is kept. *)

From Stdlib Require Import List NArith Arith Bool String Ascii Lia.
From Stdlib Require Import Permutation.
From Stdlib Require Import DecimalString.
Import ListNotations.

Set Implicit Arguments.

(** ** JavaScript values used by the two scripts *)
Module JS.

Definition jsstring := list N.

Definition jsstring_eq_dec : forall a b : jsstring, {a = b} + {a <> b} :=
  list_eq_dec N.eq_dec.

Definition str_eqb (a b : jsstring) : bool :=
  if jsstring_eq_dec a b then true else false.

(** A string literal of the source whose characters are all ASCII. *)
Fixpoint lit (s : string) : jsstring :=
  match s with
  | EmptyString => []
  | String c s' => N_of_ascii c :: lit s'
  end.

(** [a + b] on strings. *)
Definition concat (a b : jsstring) : jsstring := a ++ b.

(** [String(n)] for a non-negative integer, as in a template literal or an
    assignment of a number to [textContent]. *)
Definition Number_toString (n : nat) : jsstring :=
  lit (NilZero.string_of_uint (Nat.to_uint n)).

(** Truthiness of a string: only the empty string is falsy. *)
Definition truthy (s : jsstring) : bool :=
  match s with [] => false | _ :: _ => true end.

(** [a || ''] where [a] is a string or [undefined]. *)
Definition or_empty (a : option jsstring) : jsstring :=
  match a with
  | Some s => if truthy s then s else []
  | None => []
  end.

(** ECMAScript WhiteSpace and LineTerminator code units, the ones
    [String.prototype.trim] strips. *)
Definition isWhiteSpace (c : N) : bool :=
  ((9 <=? c) && (c <=? 13) || (c =? 32) || (c =? 160) || (c =? 5760)
   || (8192 <=? c) && (c <=? 8202) || (c =? 8232) || (c =? 8233)
   || (c =? 8239) || (c =? 8287) || (c =? 12288) || (c =? 65279))%N.

Fixpoint trimStart (s : jsstring) : jsstring :=
  match s with
  | [] => []
  | c :: s' => if isWhiteSpace c then trimStart s' else s
  end.

Definition trimEnd (s : jsstring) : jsstring := rev (trimStart (rev s)).

Definition trim (s : jsstring) : jsstring := trimEnd (trimStart s).

(** [s.split(sep)] for a one-code-unit separator: the pieces between the
    separators, so the empty string gives one empty piece. *)
Fixpoint split (sep : N) (s : jsstring) : list jsstring :=
  match s with
  | [] => [[]]
  | c :: s' =>
      if (c =? sep)%N then [] :: split sep s'
      else match split sep s' with
           | [] => [[c]]
           | t :: ts => (c :: t) :: ts
           end
  end.

Definition comma : N := 44.

(** [arr.includes(x)] on an array of strings. *)
Definition includes (arr : list jsstring) (x : jsstring) : bool :=
  existsb (str_eqb x) arr.

(** *** [Set] of strings: distinct members in insertion order *)
Module StrSet.

Definition t := list jsstring.

Definition empty : t := [].
Definition size (s : t) : nat := List.length s.
Definition has (s : t) (x : jsstring) : bool := includes s x.
Definition add (s : t) (x : jsstring) : t :=
  if has s x then s else s ++ [x].
Definition delete (s : t) (x : jsstring) : t :=
  filter (fun y => negb (str_eqb x y)) s.
Definition clear (_ : t) : t := [].
(** [Array.from(s)] *)
Definition to_array (s : t) : list jsstring := s.

End StrSet.

End JS.

(** ** The recipe filter: [assets/js/recipe-filter.js] *)
Module RecipeFilter.
Import JS.

Definition node := nat.

(** A DOM node as the script handles it: its identity and the markup of its
    subtree. *)
Record dom_node := { node_id : node; outerHTML : jsstring }.

(** An element of the page as [collectRecipeData] reads it. *)
Record card := {
  card_node : dom_node;
  classList : list jsstring;
  data_category : option jsstring;
  data_ingredients : option jsstring;
  data_dietary : option jsstring
}.

(** An entry of [allRecipes]. *)
Record recipe := {
  element : dom_node;
  category : jsstring;
  ingredients : list jsstring;
  dietary : list jsstring
}.

(** [activeFilters] *)
Record filters := { activeCategory : StrSet.t; activeDietary : StrSet.t }.

(** An [input] element: the target of a change event, or a control of the
    filter form. *)
Record input := {
  type : jsstring;
  name : jsstring;
  value : jsstring;
  checked : bool
}.

Inductive anchor := FilteredResultsSection | FilterHeading.

Inductive effect :=
| ConsoleLog (msg : jsstring)
| ScrollIntoView (target : anchor).

(** The script state and the part of the document it touches. A DOM
    reference that [getElementById] leaves [null] is [None]; for an element
    that is present the field holds the property the script writes. *)
Record page := {
  allRecipes : list recipe;
  activeFilters : filters;
  document_elements : list card;
  next_node : node;
  filterForm : option (list input);
  filteredResultsSection : option jsstring;
  filteredResultsGrid : option (list dom_node);
  resultCountSpan : option jsstring;
  resetButton : bool;
  activeFiltersCountSpan : option jsstring;
  originalRecipeSections : list jsstring;
  filterHeading : bool;
  changeListener : bool;
  clickListener : bool;
  effects : list effect
}.

Definition set_allRecipes v (s : page) : page :=
  Build_page v (activeFilters s) (document_elements s) (next_node s)
    (filterForm s) (filteredResultsSection s) (filteredResultsGrid s)
    (resultCountSpan s) (resetButton s) (activeFiltersCountSpan s)
    (originalRecipeSections s) (filterHeading s) (changeListener s)
    (clickListener s) (effects s).

Definition set_activeFilters v (s : page) : page :=
  Build_page (allRecipes s) v (document_elements s) (next_node s)
    (filterForm s) (filteredResultsSection s) (filteredResultsGrid s)
    (resultCountSpan s) (resetButton s) (activeFiltersCountSpan s)
    (originalRecipeSections s) (filterHeading s) (changeListener s)
    (clickListener s) (effects s).

Definition set_next_node v (s : page) : page :=
  Build_page (allRecipes s) (activeFilters s) (document_elements s) v
    (filterForm s) (filteredResultsSection s) (filteredResultsGrid s)
    (resultCountSpan s) (resetButton s) (activeFiltersCountSpan s)
    (originalRecipeSections s) (filterHeading s) (changeListener s)
    (clickListener s) (effects s).

Definition set_filterForm v (s : page) : page :=
  Build_page (allRecipes s) (activeFilters s) (document_elements s)
    (next_node s) v (filteredResultsSection s) (filteredResultsGrid s)
    (resultCountSpan s) (resetButton s) (activeFiltersCountSpan s)
    (originalRecipeSections s) (filterHeading s) (changeListener s)
    (clickListener s) (effects s).

Definition set_filteredResultsSection v (s : page) : page :=
  Build_page (allRecipes s) (activeFilters s) (document_elements s)
    (next_node s) (filterForm s) v (filteredResultsGrid s)
    (resultCountSpan s) (resetButton s) (activeFiltersCountSpan s)
    (originalRecipeSections s) (filterHeading s) (changeListener s)
    (clickListener s) (effects s).

Definition set_filteredResultsGrid v (s : page) : page :=
  Build_page (allRecipes s) (activeFilters s) (document_elements s)
    (next_node s) (filterForm s) (filteredResultsSection s) v
    (resultCountSpan s) (resetButton s) (activeFiltersCountSpan s)
    (originalRecipeSections s) (filterHeading s) (changeListener s)
    (clickListener s) (effects s).

Definition set_resultCountSpan v (s : page) : page :=
  Build_page (allRecipes s) (activeFilters s) (document_elements s)
    (next_node s) (filterForm s) (filteredResultsSection s)
    (filteredResultsGrid s) v (resetButton s) (activeFiltersCountSpan s)
    (originalRecipeSections s) (filterHeading s) (changeListener s)
    (clickListener s) (effects s).

Definition set_activeFiltersCountSpan v (s : page) : page :=
  Build_page (allRecipes s) (activeFilters s) (document_elements s)
    (next_node s) (filterForm s) (filteredResultsSection s)
    (filteredResultsGrid s) (resultCountSpan s) (resetButton s) v
    (originalRecipeSections s) (filterHeading s) (changeListener s)
    (clickListener s) (effects s).

Definition set_originalRecipeSections v (s : page) : page :=
  Build_page (allRecipes s) (activeFilters s) (document_elements s)
    (next_node s) (filterForm s) (filteredResultsSection s)
    (filteredResultsGrid s) (resultCountSpan s) (resetButton s)
    (activeFiltersCountSpan s) v (filterHeading s) (changeListener s)
    (clickListener s) (effects s).

Definition set_changeListener v (s : page) : page :=
  Build_page (allRecipes s) (activeFilters s) (document_elements s)
    (next_node s) (filterForm s) (filteredResultsSection s)
    (filteredResultsGrid s) (resultCountSpan s) (resetButton s)
    (activeFiltersCountSpan s) (originalRecipeSections s) (filterHeading s)
    v (clickListener s) (effects s).

Definition set_clickListener v (s : page) : page :=
  Build_page (allRecipes s) (activeFilters s) (document_elements s)
    (next_node s) (filterForm s) (filteredResultsSection s)
    (filteredResultsGrid s) (resultCountSpan s) (resetButton s)
    (activeFiltersCountSpan s) (originalRecipeSections s) (filterHeading s)
    (changeListener s) v (effects s).

Definition set_effects v (s : page) : page :=
  Build_page (allRecipes s) (activeFilters s) (document_elements s)
    (next_node s) (filterForm s) (filteredResultsSection s)
    (filteredResultsGrid s) (resultCountSpan s) (resetButton s)
    (activeFiltersCountSpan s) (originalRecipeSections s) (filterHeading s)
    (changeListener s) (clickListener s) v.

(** *** Handlers: state, and a thrown exception that ends the handler *)

Inductive exn := TypeError.

Inductive completion (A : Type) :=
| Normal (a : A)
| Throw (e : exn).
Arguments Normal {A} a.
Arguments Throw {A} e.

Definition M (A : Type) := page -> completion A * page.

Definition ret {A} (a : A) : M A := fun s => (Normal a, s).

Definition bind {A B} (m : M A) (k : A -> M B) : M B :=
  fun s =>
    match m s with
    | (Normal a, s') => k a s'
    | (Throw e, s') => (Throw e, s')
    end.

Definition throw {A} (e : exn) : M A := fun s => (Throw e, s).
Definition get : M page := fun s => (Normal s, s).
Definition modify (f : page -> page) : M unit := fun s => (Normal tt, f s).

Notation "x <- m ;; k" := (bind m (fun x => k))
  (at level 61, m at next level, right associativity).
Notation "m ;;; k" := (bind m (fun _ => k))
  (at level 61, right associativity).

(** [arr.forEach(f)] for an effectful [f]. *)
Fixpoint forEach {A} (callback : A -> M unit) (arr : list A) : M unit :=
  match arr with
  | [] => ret tt
  | x :: rest => callback x ;;; forEach callback rest
  end.

(** [arr.map(f)] for an effectful [f]. *)
Fixpoint mapM {A B} (callback : A -> M B) (arr : list A) : M (list B) :=
  match arr with
  | [] => ret []
  | x :: rest =>
      y <- callback x ;; ys <- mapM callback rest ;; ret (y :: ys)
  end.

Definition state_of {A} (r : completion A * page) : page := snd r.

Definition completes {A} (r : completion A * page) : bool :=
  match fst r with Normal _ => true | Throw _ => false end.

(** *** DOM primitives *)

Definition perform (e : effect) : M unit :=
  modify (fun s => set_effects (effects s ++ [e]) s).

(** [n.cloneNode(true)]: a new node with a copy of the subtree. *)
Definition cloneNode (n : dom_node) : M dom_node :=
  fun s =>
    (Normal {| node_id := next_node s; outerHTML := outerHTML n |},
     set_next_node (S (next_node s)) s).

(** [filteredResultsSection.style.display = v] *)
Definition section_set_display (v : jsstring) : M unit :=
  s <- get ;;
  match filteredResultsSection s with
  | None => throw TypeError
  | Some _ => modify (set_filteredResultsSection (Some v))
  end.

(** [filteredResultsSection.scrollIntoView(...)] *)
Definition section_scrollIntoView : M unit :=
  s <- get ;;
  match filteredResultsSection s with
  | None => throw TypeError
  | Some _ => perform (ScrollIntoView FilteredResultsSection)
  end.

(** [originalRecipeSections.forEach(section => section.style.display = v)] *)
Definition originals_set_display (v : jsstring) : M unit :=
  modify (fun s =>
    set_originalRecipeSections (map (fun _ => v) (originalRecipeSections s)) s).

(** [filteredResultsGrid.innerHTML = ''] *)
Definition grid_clear : M unit :=
  s <- get ;;
  match filteredResultsGrid s with
  | None => throw TypeError
  | Some _ => modify (set_filteredResultsGrid (Some []))
  end.

(** [parent.appendChild(n)] on the child list of [parent]: a node that is
    already in the tree is moved, not duplicated. *)
Definition append_child (children : list dom_node) (n : dom_node)
  : list dom_node :=
  filter (fun c => negb (node_id c =? node_id n)) children ++ [n].

(** [filteredResultsGrid.appendChild(n)] *)
Definition grid_appendChild (n : dom_node) : M unit :=
  s <- get ;;
  match filteredResultsGrid s with
  | None => throw TypeError
  | Some children =>
      modify (set_filteredResultsGrid (Some (append_child children n)))
  end.

(** [resultCountSpan.textContent = v] *)
Definition resultCount_set_text (v : jsstring) : M unit :=
  s <- get ;;
  match resultCountSpan s with
  | None => throw TypeError
  | Some _ => modify (set_resultCountSpan (Some v))
  end.

(** [filterForm.querySelectorAll('input[type="checkbox"]')] followed by
    [forEach(checkbox => checkbox.checked = false)]. *)
Definition uncheck (i : input) : input :=
  if str_eqb (type i) (lit "checkbox")
  then {| type := type i; name := name i; value := value i; checked := false |}
  else i.

Definition form_uncheck_all : M unit :=
  s <- get ;;
  match filterForm s with
  | None => throw TypeError
  | Some controls => modify (set_filterForm (Some (map uncheck controls)))
  end.

(** *** The functions of the script *)

(** The selector ['.recipe-card[data-category]']. *)
Definition is_recipe_card (c : card) : bool :=
  includes (classList c) (lit "recipe-card") &&
  match data_category c with Some _ => true | None => false end.

(** [(attr || '').split(',').filter(t => t.trim())] *)
Definition parse_tags (attr : option jsstring) : list jsstring :=
  filter (fun t => truthy (trim t)) (split comma (or_empty attr)).

Definition collectRecipeData : M unit :=
  s <- get ;;
  let recipeCards := filter is_recipe_card (document_elements s) in
  rs <- mapM (fun c =>
          e <- cloneNode (card_node c) ;;
          ret {| element := e;
                 category := or_empty (data_category c);
                 ingredients := parse_tags (data_ingredients c);
                 dietary := parse_tags (data_dietary c) |}) recipeCards ;;
  modify (set_allRecipes rs) ;;;
  perform (ConsoleLog (concat (lit "Collected ")
             (concat (Number_toString (List.length rs)) (lit " recipes")))).

Definition setupEventListeners : M unit :=
  s <- get ;;
  (match filterForm s with
   | Some _ => modify (set_changeListener true)
   | None => ret tt
   end) ;;;
  (if resetButton s then modify (set_clickListener true) else ret tt).

Definition updateActiveFiltersCount : M unit :=
  s <- get ;;
  let totalActive :=
    StrSet.size (activeCategory (activeFilters s)) +
    StrSet.size (activeDietary (activeFilters s)) in
  match activeFiltersCountSpan s with
  | Some _ =>
      if totalActive =? 0
      then modify (set_activeFiltersCountSpan (Some (lit EmptyString)))
      else modify (set_activeFiltersCountSpan
                     (Some (concat (Number_toString totalActive)
                                   (lit " filter(s) active"))))
  | None => ret tt
  end.

Definition hideFilteredResults : M unit :=
  section_set_display (lit "none") ;;;
  originals_set_display (lit "block").

Definition displayFilteredResults (filteredRecipes : list recipe) : M unit :=
  originals_set_display (lit "none") ;;;
  grid_clear ;;;
  forEach (fun r => grid_appendChild (element r)) filteredRecipes ;;;
  resultCount_set_text (Number_toString (List.length filteredRecipes)) ;;;
  section_set_display (lit "block") ;;;
  section_scrollIntoView.

(** The callback of [allRecipes.filter] in [applyFilters]. *)
Definition recipe_matches (f : filters) (r : recipe) : bool :=
  let categoryMatch :=
    (StrSet.size (activeCategory f) =? 0) ||
    StrSet.has (activeCategory f) (category r) in
  let dietaryMatch :=
    (StrSet.size (activeDietary f) =? 0) ||
    forallb (fun d => includes (dietary r) d)
            (StrSet.to_array (activeDietary f)) in
  categoryMatch && dietaryMatch.

Definition hasActiveFilters (f : filters) : bool :=
  (0 <? StrSet.size (activeCategory f)) ||
  (0 <? StrSet.size (activeDietary f)).

(** [allRecipes.filter(...)] in [applyFilters]. *)
Definition filteredRecipes (s : page) : list recipe :=
  filter (recipe_matches (activeFilters s)) (allRecipes s).

Definition applyFilters : M unit :=
  s <- get ;;
  if negb (hasActiveFilters (activeFilters s))
  then hideFilteredResults
  else displayFilteredResults (filteredRecipes s).

(** [activeFilters[filterType].add(value)] and [.delete(value)]: a
    property name other than the two sets gives no [Set], and the method
    call throws. *)
Definition filters_update (filterType : jsstring)
    (op : StrSet.t -> StrSet.t) : M unit :=
  s <- get ;;
  let f := activeFilters s in
  if str_eqb filterType (lit "category") then
    modify (set_activeFilters
      {| activeCategory := op (activeCategory f);
         activeDietary := activeDietary f |})
  else if str_eqb filterType (lit "dietary") then
    modify (set_activeFilters
      {| activeCategory := activeCategory f;
         activeDietary := op (activeDietary f) |})
  else throw TypeError.

Definition handleFilterChange (target : input) : M unit :=
  if negb (str_eqb (type target) (lit "checkbox")) then ret tt
  else
    let filterType := name target in
    let value := value target in
    (if checked target
     then filters_update filterType (fun st => StrSet.add st value)
     else filters_update filterType (fun st => StrSet.delete st value)) ;;;
    applyFilters ;;;
    updateActiveFiltersCount.

Definition resetFilters : M unit :=
  modify (fun s => set_activeFilters
    {| activeCategory := StrSet.clear (activeCategory (activeFilters s));
       activeDietary := StrSet.clear (activeDietary (activeFilters s)) |} s) ;;;
  form_uncheck_all ;;;
  hideFilteredResults ;;;
  updateActiveFiltersCount ;;;
  s <- get ;;
  if filterHeading s then perform (ScrollIntoView FilterHeading) else ret tt.

Definition setup : M unit :=
  collectRecipeData ;;;
  setupEventListeners ;;;
  updateActiveFiltersCount.

(** Delivery of a DOM event: the handler runs only if [setup] registered
    it. *)
Definition dispatch_change (target : input) : M unit :=
  s <- get ;;
  if changeListener s then handleFilterChange target else ret tt.

Definition dispatch_click : M unit :=
  s <- get ;;
  if clickListener s then resetFilters else ret tt.

(** The operations under the names the design document gives them. *)
Definition checkbox (filterType v : jsstring) (on : bool) : input :=
  {| type := lit "checkbox"; name := filterType; value := v; checked := on |}.

Definition toggle (filterType v : jsstring) (on : bool) : M unit :=
  handleFilterChange (checkbox filterType v on).

Definition recompute : M unit := applyFilters.
Definition reset : M unit := resetFilters.
Definition updateCount : M unit := updateActiveFiltersCount.

(** *** Reference definitions, written from the design document *)

(** The tag list as the document words it: split on commas, each token
    trimmed, empty tokens discarded. *)
Definition spec_tags (attr : option jsstring) : list jsstring :=
  filter truthy (map trim (split comma (or_empty attr))).

(** The records [collectRecipeData] builds for the cards [cs] when the
    next unused node identity is [n]. *)
Fixpoint snapshots (n : node) (cs : list card) : list recipe :=
  match cs with
  | [] => []
  | c :: cs' =>
      {| element := {| node_id := n; outerHTML := outerHTML (card_node c) |};
         category := or_empty (data_category c);
         ingredients := parse_tags (data_ingredients c);
         dietary := parse_tags (data_dietary c) |} :: snapshots (S n) cs'
  end.

(** The children of an emptied grid after the [forEach] of
    [displayFilteredResults] has appended the elements of [L]. *)
Definition displayed (L : list recipe) : list dom_node :=
  fold_left append_child (map element L) [].

(** What the page shows: the children of the results grid, the result
    count, and the [display] of the results section and of the original
    sections. *)
Record view := {
  shown : option (list dom_node);
  count : option jsstring;
  results_display : option jsstring;
  originals_display : list jsstring
}.

Definition view_of (s : page) : view :=
  {| shown := filteredResultsGrid s;
     count := resultCountSpan s;
     results_display := filteredResultsSection s;
     originals_display := originalRecipeSections s |}.

Definition is_some {A} (o : option A) : bool :=
  match o with Some _ => true | None => false end.

(** The three elements [displayFilteredResults] writes to are present. *)
Definition results_anchors (s : page) : bool :=
  is_some (filteredResultsSection s) && is_some (filteredResultsGrid s) &&
  is_some (resultCountSpan s).

(** The Idle state: no filter active, results hidden, originals shown. *)
Definition Idle (s : page) : Prop :=
  activeFilters s = {| activeCategory := []; activeDietary := [] |} /\
  filteredResultsSection s = Some (lit "none") /\
  Forall (fun d => d = lit "block") (originalRecipeSections s).

(** The display as the document words it: the grid holds fresh copies of
    the matching snapshots, so no stored snapshot is itself in the grid. *)
Definition shows_fresh_copies (s s' : page) : Prop :=
  exists g,
    filteredResultsGrid s' = Some g /\
    map outerHTML g =
      map (fun r => outerHTML (element r)) (filteredRecipes s) /\
    (forall n r, In n g -> In r (allRecipes s') ->
                 node_id n <> node_id (element r)) /\
    resultCountSpan s' =
      Some (Number_toString (List.length (filteredRecipes s))).

(** The page is showing what a recompute and a count update show for its
    filter state. *)
Definition settled (s : page) : Prop :=
  view_of (state_of (recompute s)) = view_of s /\
  activeFiltersCountSpan (state_of (updateCount s)) =
    activeFiltersCountSpan s.

(** A checkbox switched on and then off again. *)
Definition on_then_off (filterType v : jsstring) (s : page) : page :=
  state_of (toggle filterType v false (state_of (toggle filterType v true s))).

(** The round trip as the document words it. *)
Definition round_trip (filterType v : jsstring) (s : page) : Prop :=
  activeFilters (on_then_off filterType v s) = activeFilters s /\
  view_of (on_then_off filterType v s) = view_of s /\
  activeFiltersCountSpan (on_then_off filterType v s) =
    activeFiltersCountSpan s.

(** The page after a recompute and a count update that meet no missing
    element. *)
Definition refreshed (s : page) : page :=
  let s' :=
    if hasActiveFilters (activeFilters s) then
      set_effects (effects s ++ [ScrollIntoView FilteredResultsSection])
        (set_filteredResultsSection (Some (lit "block"))
          (set_resultCountSpan
            (Some (Number_toString (List.length (filteredRecipes s))))
            (set_filteredResultsGrid (Some (displayed (filteredRecipes s)))
              (set_originalRecipeSections
                (map (fun _ => lit "none") (originalRecipeSections s)) s))))
    else
      set_originalRecipeSections
        (map (fun _ => lit "block") (originalRecipeSections s))
        (set_filteredResultsSection (Some (lit "none")) s) in
  state_of (updateActiveFiltersCount s').

(** [activeFilters] after the change event of a checkbox. *)
Definition toggled (filterType v : jsstring) (on : bool) (f : filters)
  : filters :=
  let op := fun st => if on then StrSet.add st v else StrSet.delete st v in
  if str_eqb filterType (lit "category") then
    {| activeCategory := op (activeCategory f);
       activeDietary := activeDietary f |}
  else
    {| activeCategory := activeCategory f;
       activeDietary := op (activeDietary f) |}.

(** The filter set a filter type names. *)
Definition selected (filterType : jsstring) (f : filters) : StrSet.t :=
  if str_eqb filterType (lit "category") then activeCategory f
  else activeDietary f.

(** The view a completed recompute leaves, from the filter state, the
    stored recipes and the view before it. *)
Definition refresh_view (f : filters) (rs : list recipe) (w : view) : view :=
  if hasActiveFilters f then
    {| shown := Some (displayed (filter (recipe_matches f) rs));
       count := Some (Number_toString
                        (List.length (filter (recipe_matches f) rs)));
       results_display := Some (lit "block");
       originals_display := map (fun _ => lit "none") (originals_display w) |}
  else
    {| shown := shown w;
       count := count w;
       results_display := Some (lit "none");
       originals_display :=
         map (fun _ => lit "block") (originals_display w) |}.

(** The active-filter label a count update leaves. *)
Definition label_for (f : filters) (l : option jsstring) : option jsstring :=
  match l with
  | None => None
  | Some _ =>
      let totalActive :=
        StrSet.size (activeCategory f) + StrSet.size (activeDietary f) in
      Some (if totalActive =? 0 then lit EmptyString
            else concat (Number_toString totalActive)
                        (lit " filter(s) active"))
  end.

(** *** The page over time *)

(** What the user does once the page is set up. *)
Inductive event :=
| Change (target : input)
| Click.

Definition dispatch (e : event) : M unit :=
  match e with
  | Change t => dispatch_change t
  | Click => dispatch_click
  end.

(** The events are handled one after the other; a handler that throws
    leaves the page as it was at the throw. *)
Fixpoint run (es : list event) (s : page) : page :=
  match es with
  | [] => s
  | e :: es' => run es' (state_of (dispatch e s))
  end.

(** The served page [s0] after [setup] and the events [es]. *)
Definition after (s0 : page) (es : list event) : page :=
  run es (state_of (setup s0)).

Definition recipeCards (s : page) : list card :=
  filter is_recipe_card (document_elements s).

End RecipeFilter.

(** ** The include resolver: [assets/js/includes.js] *)
Module Includes.
Import JS.

(** A node of the document tree. *)
Unset Elimination Schemes.
Inductive dom :=
| Elem (tag : jsstring) (attributes : list (jsstring * jsstring))
       (children : list dom)
| TextNode (data : jsstring)
| CommentNode (data : jsstring).
Set Elimination Schemes.

(** Induction on a tree, all children of an element at once. *)
Section DomInduction.

Variable P : dom -> Prop.
Hypothesis P_elem : forall tag attrs ch, Forall P ch -> P (Elem tag attrs ch).
Hypothesis P_text : forall s, P (TextNode s).
Hypothesis P_comment : forall s, P (CommentNode s).

Fixpoint dom_forall (d : dom) : P d :=
  match d with
  | Elem tag attrs ch =>
      @P_elem tag attrs ch
        ((fix all (l : list dom) : Forall P l :=
            match l with
            | [] => @Forall_nil dom P
            | c :: l' => @Forall_cons dom P c l' (dom_forall c) (all l')
            end) ch)
  | TextNode s => @P_text s
  | CommentNode s => @P_comment s
  end.

End DomInduction.

(** The handler keeps the elements [querySelectorAll] returned. Such a
    reference is modelled by the place of the element in the document as
    it was when the handler ran: the child indices from the top down. The
    empty path stands for the document itself. *)
Definition path := list nat.

(** [above p q]: the node at [p] is a proper ancestor of the node at
    [q]. *)
Fixpoint above (p q : path) : bool :=
  match p, q with
  | [], _ :: _ => true
  | i :: p', j :: q' => (i =? j) && above p' q'
  | _, [] => false
  end.

Definition children_of (d : dom) : list dom :=
  match d with
  | Elem _ _ ch => ch
  | _ => []
  end.

(** The node at a path. *)
Fixpoint lookup (p : path) (forest : list dom) : option dom :=
  match p with
  | [] => None
  | i :: p' =>
      match nth_error forest i with
      | None => None
      | Some d =>
          match p' with
          | [] => Some d
          | _ :: _ => lookup p' (children_of d)
          end
      end
  end.

Fixpoint update_nth {A} (i : nat) (f : A -> A) (l : list A) : list A :=
  match l, i with
  | [], _ => []
  | x :: l', 0 => f x :: l'
  | x :: l', S i' => x :: update_nth i' f l'
  end.

(** The forest with the children of the element at [p] replaced by
    [new]; everything that was below that element is gone. *)
Fixpoint set_children (p : path) (new forest : list dom) : list dom :=
  match p with
  | [] => new
  | i :: p' =>
      update_nth i
        (fun d => match d with
                  | Elem tag attrs ch =>
                      Elem tag attrs (set_children p' new ch)
                  | _ => d
                  end) forest
  end.

(** The paths of the elements of a list of siblings, the first sibling
    having index [i], in document order; [inside] lists the elements of one
    sibling. *)
Fixpoint index_paths (inside : dom -> list path) (i : nat) (l : list dom)
  : list path :=
  match l with
  | [] => []
  | c :: l' => map (cons i) (inside c) ++ index_paths inside (S i) l'
  end.

(** The elements of the subtree of [d], [d] itself first, as paths
    relative to [d]. *)
Fixpoint paths_of (d : dom) : list path :=
  match d with
  | Elem _ _ ch => [] :: index_paths paths_of 0 ch
  | _ => []
  end.

(** All elements of the document, in document order. *)
Definition all_paths (forest : list dom) : list path :=
  index_paths paths_of 0 forest.

Fixpoint assoc (k : jsstring) (l : list (jsstring * jsstring))
  : option jsstring :=
  match l with
  | [] => None
  | (k', v) :: l' => if str_eqb k k' then Some v else assoc k l'
  end.

(** [e.getAttribute(name)]; [None] is [null]. *)
Definition getAttribute (d : dom) (name : jsstring) : option jsstring :=
  match d with
  | Elem _ attrs _ => assoc name attrs
  | _ => None
  end.

Definition attribute_at (doc : list dom) (p : path) (name : jsstring)
  : option jsstring :=
  match lookup p doc with
  | Some d => getAttribute d name
  | None => None
  end.

(** [document.querySelectorAll('[attr]')] *)
Definition querySelectorAll_attr (attr : jsstring) (doc : list dom)
  : list path :=
  filter (fun p => match attribute_at doc p attr with
                   | Some _ => true
                   | None => false
                   end) (all_paths doc).

Inductive error :=
| FetchFailure (reason : jsstring)
| Error (message : jsstring).

(** What [response.text()] settles to. *)
Inductive body :=
| Text (html : jsstring)
| TextFailure (e : error).

(** What [fetch(path)] settles to. *)
Inductive fetch_result :=
| Rejected (e : error)
| Response (ok : bool) (b : body).

(** The page while the fetches complete: the document, the targets whose
    content has been replaced so far, and the console. *)
Record state := {
  document : list dom;
  replaced : list path;
  console : list error
}.

(** A fetch the handler has issued, with the element its continuation
    writes to. *)
Record request := { target : path; includePath : jsstring }.

Definition data_include : jsstring := lit "data-include".

(** The marker the [catch] callback writes. *)
Definition fallback_marker : jsstring :=
  lit "<!-- include" ++ [47484; 32; 48520; 47084; 50724; 51648; 32;
                         47803; 54664; 49845; 45768; 45796]%N ++ lit ". -->".

(** The body of the [forEach] callback up to the [fetch] call. *)
Definition issue (doc : list dom) (t : path) : list request :=
  match attribute_at doc t data_include with
  | None => []
  | Some includePath =>
      if negb (truthy includePath) then []
      else [{| target := t; includePath := includePath |}]
  end.

(** The synchronous part of the handler: the fetches issued, in document
    order. *)
Definition issued (doc : list dom) : list request :=
  flat_map (issue doc) (querySelectorAll_attr data_include doc).

(** The tag of the element at [p]. *)
Definition tag_at (doc : list dom) (p : path) : jsstring :=
  match lookup p doc with
  | Some (Elem tag _ _) => tag
  | _ => []
  end.

(** An element that was inside a target whose content has been replaced is
    no longer part of the document. *)
Definition detached (p : path) (gone : list path) : bool :=
  existsb (fun a => above a p) gone.

Section Handler.

(** The HTML fragment parser of the browser: the nodes it builds from a
    string for a context element with the given tag. *)
Variable parse : jsstring -> jsstring -> list dom.

(** [target.innerHTML = html]: the children of the target are replaced by
    the nodes parsed from [html] in the context of the target. When the
    target is no longer part of the document the assignment changes that
    removed element and nothing in the document. *)
Definition set_innerHTML (p : path) (html : jsstring) (st : state) : state :=
  {| document := if detached p (replaced st) then document st
                 else set_children p (parse (tag_at (document st) p) html)
                                   (document st);
     replaced := p :: replaced st;
     console := console st |}.

(** The [catch] callback. *)
Definition on_catch (p : path) (e : error) (st : state) : state :=
  set_innerHTML p fallback_marker
    {| document := document st;
       replaced := replaced st;
       console := console st ++ [e] |}.

(** The promise chain of one request, run when its fetch has settled to
    [r]. *)
Definition settle (rq : request) (r : fetch_result) (st : state) : state :=
  match r with
  | Rejected e => on_catch (target rq) e st
  | Response ok b =>
      if negb ok then
        on_catch (target rq)
          (Error (concat (lit "Failed to load include: ") (includePath rq)))
          st
      else
        match b with
        | Text html => set_innerHTML (target rq) html st
        | TextFailure e => on_catch (target rq) e st
        end
  end.

(** The fetches settle in an order the script does not control. A
    [schedule] lists the indices (into [issued]) of the requests that
    settle, in completion order; [network i] is what request [i] settles
    to. A request that is not scheduled stays pending. *)
Fixpoint complete (rqs : list request) (network : nat -> fetch_result)
    (schedule : list nat) (st : state) : state :=
  match schedule with
  | [] => st
  | i :: rest =>
      match nth_error rqs i with
      | Some rq => complete rqs network rest (settle rq (network i) st)
      | None => complete rqs network rest st
      end
  end.

(** The [DOMContentLoaded] handler on the document [doc], together with
    the completions of its fetches; [log] is what the console holds
    already. *)
Definition onDOMContentLoaded (network : nat -> fetch_result)
    (schedule : list nat) (doc : list dom) (log : list error) : state :=
  complete (issued doc) network schedule
    {| document := doc; replaced := []; console := log |}.

End Handler.

(** The text a request's element is given when the request settles to
    [r]. *)
Definition outcome_html (r : fetch_result) : jsstring :=
  match r with
  | Response true (Text html) => html
  | _ => fallback_marker
  end.

(** The fetch failed: a network error or a response without success
    status. *)
Definition fetch_failed (r : fetch_result) : bool :=
  match r with
  | Rejected _ => true
  | Response ok _ => negb ok
  end.

(** The error the [catch] callback receives for a failed fetch. *)
Definition failure_error (rq : request) (r : fetch_result) : error :=
  match r with
  | Rejected e => e
  | Response _ _ =>
      Error (concat (lit "Failed to load include: ") (includePath rq))
  end.

Definition with_children (new : list dom) (d : dom) : dom :=
  match d with
  | Elem tag attrs _ => Elem tag attrs new
  | _ => d
  end.

Definition scheduled (i : nat) (schedule : list nat) : bool :=
  existsb (Nat.eqb i) schedule.

(** [rest] leads from the node [d] to an element. *)
Definition leads_to_element (d : dom) (rest : path) : Prop :=
  match rest with
  | [] => exists tag attrs ch, d = Elem tag attrs ch
  | _ :: _ => exists tag attrs ch,
                lookup rest (children_of d) = Some (Elem tag attrs ch)
  end.

(** What the [catch] callback logs when a request settles to [r]. *)
Definition logged (rq : request) (r : fetch_result) : list error :=
  match r with
  | Rejected e => [e]
  | Response false _ =>
      [Error (concat (lit "Failed to load include: ") (includePath rq))]
  | Response true (Text _) => []
  | Response true (TextFailure e) => [e]
  end.

(** The fetch delivered the text of the fragment. *)
Definition delivered (r : fetch_result) : bool :=
  match r with
  | Response true (Text _) => true
  | _ => false
  end.

(** The element at [p] has a [data-include] attribute with a non-empty
    value. *)
Definition has_include (doc : list dom) (p : path) : bool :=
  match attribute_at doc p data_include with
  | Some v => truthy v
  | None => false
  end.

(** One completion, on the document and the replaced targets alone. *)
Definition step (parse : jsstring -> jsstring -> list dom)
    (network : nat -> fetch_result)
    (rqs : list request) (page : list dom * list path) (i : nat)
  : list dom * list path :=
  match nth_error rqs i with
  | Some rq =>
      (if detached (target rq) (snd page) then fst page
       else set_children (target rq)
              (parse (tag_at (fst page) (target rq))
                     (outcome_html (network i)))
              (fst page),
       target rq :: snd page)
  | None => page
  end.

(** The same document, and the same targets replaced so far. *)
Definition same_page (a b : list dom * list path) : Prop :=
  fst a = fst b /\ forall p, In p (snd a) <-> In p (snd b).

(** Neither node is the other, above it or below it. *)
Definition apart (p q : path) : Prop :=
  p <> q /\ above p q = false /\ above q p = false.

(** The claim of locality as the design document words it: a failed
    fetch leaves the marker in its placeholder and is logged, and every
    other placeholder ends with the outcome of its own fetch. *)
Definition failures_are_local (parse : jsstring -> jsstring -> list dom)
    (network : nat -> fetch_result) (schedule : list nat) (doc : list dom)
  : Prop :=
  forall i rq,
    nth_error (issued doc) i = Some rq ->
    In i schedule ->
    fetch_failed (network i) = true ->
    In (failure_error rq (network i))
       (console (onDOMContentLoaded parse network schedule doc [])) /\
    (exists tag attrs ch,
       lookup (target rq) doc = Some (Elem tag attrs ch) /\
       lookup (target rq)
         (document (onDOMContentLoaded parse network schedule doc [])) =
       Some (Elem tag attrs (parse tag fallback_marker))) /\
    forall j rqj,
      j <> i ->
      nth_error (issued doc) j = Some rqj ->
      exists tag attrs ch,
        lookup (target rqj) doc = Some (Elem tag attrs ch) /\
        lookup (target rqj)
          (document (onDOMContentLoaded parse network schedule doc [])) =
        Some (Elem tag attrs
                (if scheduled j schedule
                 then parse tag (outcome_html (network j))
                 else ch)).

(** The claim about placeholders without a path as the design document
    words it: no fetch, and the content unchanged. *)
Definition unfetched_left_alone (parse : jsstring -> jsstring -> list dom)
    (network : nat -> fetch_result) (schedule : list nat) (doc : list dom)
  : Prop :=
  forall q tag attrs ch,
    lookup q doc = Some (Elem tag attrs ch) ->
    assoc data_include attrs = None \/
    assoc data_include attrs = Some (lit EmptyString) ->
    (forall rq, In rq (issued doc) -> target rq <> q) /\
    lookup q (document (onDOMContentLoaded parse network schedule doc [])) =
      Some (Elem tag attrs ch).

End Includes.

(** ** A concrete page: the two-recipe scenario of the design document *)
Module Scenario.
Import JS RecipeFilter.

Definition cardA : card :=
  {| card_node := {| node_id := 1; outerHTML := lit "<article>A</article>" |};
     classList := [lit "card"; lit "recipe-card"];
     data_category := Some (lit "main-dish");
     data_ingredients := Some (lit "doenjang,tofu");
     data_dietary := Some (lit "vegan,halal") |}.

Definition cardB : card :=
  {| card_node := {| node_id := 2; outerHTML := lit "<article>B</article>" |};
     classList := [lit "card"; lit "recipe-card"];
     data_category := Some (lit "rice");
     data_ingredients := Some (lit "rice,kimchi");
     data_dietary := Some (lit "gluten-free") |}.

(** A card whose dietary list is written with a space after the comma and
    one without any tag attribute besides the category. *)
Definition cardSpaced : card :=
  {| card_node := {| node_id := 3; outerHTML := lit "<article>C</article>" |};
     classList := [lit "recipe-card"];
     data_category := Some (lit "side-dish");
     data_ingredients := None;
     data_dietary := Some (lit "vegan, halal") |}.

Definition form : list input :=
  [ checkbox (lit "category") (lit "main-dish") false;
    checkbox (lit "category") (lit "rice") false;
    checkbox (lit "dietary") (lit "vegan") false;
    checkbox (lit "dietary") (lit "halal") false;
    {| type := lit "text"; name := lit "q"; value := lit "soup";
       checked := true |} ].

(** The page as served, before the script runs. *)
Definition served (cards : list card) : page :=
  {| allRecipes := [];
     activeFilters := {| activeCategory := StrSet.empty;
                         activeDietary := StrSet.empty |};
     document_elements := cards;
     next_node := 100;
     filterForm := Some form;
     filteredResultsSection := Some (lit "none");
     filteredResultsGrid := Some [];
     resultCountSpan := Some (lit "0");
     resetButton := true;
     activeFiltersCountSpan := Some (lit EmptyString);
     originalRecipeSections := [lit EmptyString; lit EmptyString;
                                lit EmptyString; lit EmptyString];
     filterHeading := true;
     changeListener := false;
     clickListener := false;
     effects := [] |}.

(** After [setup]. *)
Definition idle : page := state_of (setup (served [cardA; cardB])).

(** The form once the user has ticked category [main-dish]. *)
Definition form_ticked : list input :=
  checkbox (lit "category") (lit "main-dish") true :: tl form.

(** After the change event of that tick. *)
Definition main_dish_selected : page :=
  state_of (dispatch_change (checkbox (lit "category") (lit "main-dish") true)
              (set_filterForm (Some form_ticked) idle)).

(** The same page served without the active-filter label. *)
Definition without_label : page :=
  set_activeFiltersCountSpan None main_dish_selected.

(** The same page served without the results grid. *)
Definition without_grid : page :=
  set_filteredResultsGrid None main_dish_selected.

Definition recipeA : recipe :=
  {| element := {| node_id := 100; outerHTML := lit "<article>A</article>" |};
     category := lit "main-dish";
     ingredients := [lit "doenjang"; lit "tofu"];
     dietary := [lit "vegan"; lit "halal"] |}.

End Scenario.

(** ** A concrete nested page with a header placeholder *)
Module IncludeScenario.
Import JS Includes.

Definition header_path : jsstring := lit "../../partials/header.html".
Definition footer_path : jsstring := lit "../../partials/footer.html".

Definition header_html : jsstring :=
  lit "<a href='index.html' data-root-href='index.html'>home</a>".

(** The link the parser builds from [header_html]. *)
Definition header_link : dom :=
  Elem (lit "a")
       [(lit "href", lit "index.html"); (lit "data-root-href", lit "index.html")]
       [TextNode (lit "home")].

(** The comment the parser builds from the fallback marker. *)
Definition marker_comment : dom :=
  CommentNode (lit " include" ++ [47484; 32; 48520; 47084; 50724; 51648; 32;
                                  47803; 54664; 49845; 45768; 45796]%N
               ++ lit ". ").

(** The fragment parser on the strings of this scenario, the same in
    every context. *)
Definition parse (context html : jsstring) : list dom :=
  if str_eqb html header_html then [header_link]
  else if str_eqb html fallback_marker then [marker_comment]
  else [TextNode html].

Definition header_placeholder : dom :=
  Elem (lit "div")
       [(lit "data-include", header_path); (lit "data-root-path", lit "../..")]
       [].

Definition empty_placeholder : dom :=
  Elem (lit "div") [(lit "data-include", lit EmptyString)]
       [TextNode (lit "kept")].

Definition footer_placeholder : dom :=
  Elem (lit "div") [(lit "data-include", footer_path)] [].

(** A link of the page itself that is marked as root-relative. *)
Definition home_link : dom :=
  Elem (lit "a")
       [(lit "href", lit "index.html"); (lit "data-root-href", lit "index.html")]
       [TextNode (lit "home")].

(** The page [recipes/jang/...]: the body with its two placeholders. *)
Definition loaded : list dom :=
  [Elem (lit "body") [(lit "data-root-path", lit "../..")]
        [header_placeholder; empty_placeholder; footer_placeholder;
         home_link]].

(** The header is served, the footer answers 404. *)
Definition network (i : nat) : fetch_result :=
  match i with
  | 0 => Response true (Text header_html)
  | _ => Response false (Text (lit "Not Found"))
  end.

(** A placeholder inside another one: the outer fetch fails, the inner
    one is served. *)
Definition nested : list dom :=
  [Elem (lit "div") [(lit "data-include", footer_path)]
        [header_placeholder]].

Definition nested_network (i : nat) : fetch_result :=
  match i with
  | 0 => Response false (Text (lit "Not Found"))
  | _ => Response true (Text header_html)
  end.

(** A placeholder with an empty path around a fetching one. *)
Definition wrapped : list dom :=
  [Elem (lit "div") [(lit "data-include", lit EmptyString)]
        [header_placeholder]].

End IncludeScenario.

(** ** Further vocabulary for the properties of the two scripts *)
Module Markup.
Import JS RecipeFilter.

(** [tokens.join(',')]: a tag attribute as the markup writes it. *)
Fixpoint join_commas (tokens : list jsstring) : jsstring :=
  match tokens with
  | [] => []
  | [t] => t
  | t :: rest => t ++ comma :: join_commas rest
  end.

(** A token [collectRecipeData] keeps: its trimmed form is not empty. *)
Definition kept (t : jsstring) : bool := truthy (trim t).

(** Two filter sets with the same members, whatever the order in which
    the values were added. *)
Definition same_members (a b : StrSet.t) : Prop :=
  forall x, In x a <-> In x b.

(** Which elements the page has: what the existence checks of the script
    see. *)
Record anchors := {
  has_form : bool;
  has_section : bool;
  has_grid : bool;
  has_count : bool;
  has_reset : bool;
  has_label : bool;
  has_heading : bool;
  n_originals : nat
}.

Definition anchors_of (s : page) : anchors :=
  {| has_form := is_some (filterForm s);
     has_section := is_some (filteredResultsSection s);
     has_grid := is_some (filteredResultsGrid s);
     has_count := is_some (resultCountSpan s);
     has_reset := resetButton s;
     has_label := is_some (activeFiltersCountSpan s);
     has_heading := filterHeading s;
     n_originals := List.length (originalRecipeSections s) |}.

(** What no handler changes: the stored recipes, which elements the
    script variables hold and which listeners are registered. *)
Definition frame (s s' : page) : Prop :=
  allRecipes s' = allRecipes s /\
  anchors_of s' = anchors_of s /\
  changeListener s' = changeListener s /\
  clickListener s' = clickListener s.

(** [activeFilters] after [handleFilterChange] has run for [target],
    whether or not the handler completes. *)
Definition filters_after (t : input) (f : filters) : filters :=
  if str_eqb (type t) (lit "checkbox") then
    if str_eqb (name t) (lit "category") || str_eqb (name t) (lit "dietary")
    then toggled (name t) (value t) (checked t) f
    else f
  else f.

(** Both filter sets hold each value once. *)
Definition distinct_filters (f : filters) : Prop :=
  NoDup (activeCategory f) /\ NoDup (activeDietary f).

(** Two change events, one after the other. *)
Definition two_changes (ft1 v1 : jsstring) (on1 : bool)
    (ft2 v2 : jsstring) (on2 : bool) (s : page) : page :=
  state_of (toggle ft2 v2 on2 (state_of (toggle ft1 v1 on1 s))).

(** No filter selected: the value of [activeFilters] when the script
    starts. *)
Definition no_filters : filters :=
  {| activeCategory := StrSet.empty; activeDietary := StrSet.empty |}.

(** A page served with the three example cards of the project notes. *)
Definition three_cards : page :=
  Scenario.served [Scenario.cardA; Scenario.cardB; Scenario.cardSpaced].

End Markup.

(** * Properties *)

Unset Implicit Arguments.
Import JS.

(** ** Strings and sets *)
Section JSFacts.

Lemma str_eqb_eq a b : str_eqb a b = true <-> a = b.
Proof.
  unfold str_eqb; destruct (jsstring_eq_dec a b); split; congruence.
Qed.

Lemma str_eqb_refl a : str_eqb a a = true.
Proof. now apply str_eqb_eq. Qed.

Lemma str_eqb_neq a b : str_eqb a b = false <-> a <> b.
Proof.
  unfold str_eqb; destruct (jsstring_eq_dec a b); split; congruence.
Qed.

Lemma includes_In arr x : includes arr x = true <-> In x arr.
Proof.
  unfold includes; rewrite existsb_exists; split.
  - intros (y & Hy & E); apply str_eqb_eq in E; now subst.
  - intros H; exists x; split; [assumption | apply str_eqb_refl].
Qed.

Lemma has_In s x : StrSet.has s x = true <-> In x s.
Proof. apply includes_In. Qed.

Lemma size_zero s : (StrSet.size s =? 0) = true <-> s = [].
Proof.
  unfold StrSet.size; rewrite Nat.eqb_eq; destruct s; simpl; split;
    congruence.
Qed.

Lemma delete_notin s x : ~ In x s -> StrSet.delete s x = s.
Proof.
  unfold StrSet.delete; induction s as [|y s IH]; simpl; intros H;
    [reflexivity|].
  destruct (str_eqb x y) eqn:E.
  - apply str_eqb_eq in E; subst; tauto.
  - simpl; f_equal; apply IH; tauto.
Qed.

Lemma delete_add_notin s x :
  ~ In x s -> StrSet.delete (StrSet.add s x) x = s.
Proof.
  intros H; unfold StrSet.add.
  destruct (StrSet.has s x) eqn:E; [apply has_In in E; tauto|].
  unfold StrSet.delete; rewrite filter_app; simpl.
  rewrite str_eqb_refl; simpl; rewrite app_nil_r.
  now apply delete_notin.
Qed.

(** A string without white space is its own trim. *)
Lemma trimStart_id s :
  forallb (fun c => negb (isWhiteSpace c)) s = true -> trimStart s = s.
Proof.
  destruct s as [|c s]; simpl; [reflexivity|].
  intros H; apply andb_prop in H as [H _].
  now destruct (isWhiteSpace c).
Qed.

Lemma trim_id s :
  forallb (fun c => negb (isWhiteSpace c)) s = true -> trim s = s.
Proof.
  intros H; unfold trim, trimEnd.
  rewrite (trimStart_id s H), trimStart_id, rev_involutive; trivial.
  rewrite forallb_forall in *; intros c Hc; apply H.
  now apply in_rev.
Qed.

Lemma split_no_ws sep s :
  forallb (fun c => negb (isWhiteSpace c)) s = true ->
  Forall (fun t => forallb (fun c => negb (isWhiteSpace c)) t = true)
         (split sep s).
Proof.
  induction s as [|c s IH]; simpl; intros H.
  - repeat constructor.
  - apply andb_prop in H as [Hc Hs]; specialize (IH Hs).
    destruct (c =? sep)%N.
    + constructor; [reflexivity | assumption].
    + destruct (split sep s) as [|t ts]; [repeat constructor; simpl;
        now rewrite Hc|].
      inversion IH; subst; constructor; [simpl; now rewrite Hc|assumption].
Qed.

End JSFacts.

(** ** The filter predicate *)
Import RecipeFilter.

Lemma recipe_matches_spec f r :
  recipe_matches f r = true <->
  (activeCategory f = [] \/ In (category r) (activeCategory f)) /\
  (activeDietary f = [] \/ incl (activeDietary f) (dietary r)).
Proof.
  unfold recipe_matches, StrSet.to_array.
  rewrite andb_true_iff, !orb_true_iff, !size_zero, has_In.
  rewrite forallb_forall.
  split; intros [Hc Hd]; (split; [exact Hc|]);
    (destruct Hd as [Hd|Hd]; [now left | right]).
  - intros d Hin; apply includes_In; auto.
  - intros d Hin; apply includes_In; auto.
Qed.

Lemma filteredRecipes_spec (s : page) (r : recipe) :
  In r (filteredRecipes s) <->
  In r (allRecipes s) /\
  (activeCategory (activeFilters s) = [] \/
   In (category r) (activeCategory (activeFilters s))) /\
  (activeDietary (activeFilters s) = [] \/
   incl (activeDietary (activeFilters s)) (dietary r)).
Proof.
  unfold filteredRecipes; now rewrite filter_In, recipe_matches_spec.
Qed.

(** ** Closed forms of the display functions *)

(** The children of the grid after the [forEach] of
    [displayFilteredResults] has appended the nodes [ns] to [g]. *)
Lemma forEach_appendChild (L : list recipe) : forall (s : page) g,
  filteredResultsGrid s = Some g ->
  forEach (fun r => grid_appendChild (element r)) L s =
  (Normal tt,
   match L with
   | [] => s
   | _ => set_filteredResultsGrid
            (Some (fold_left append_child (map element L) g)) s
   end).
Proof.
  induction L as [|r L IH]; intros s g Hg; [reflexivity|].
  cbn [forEach]. unfold bind at 1.
  unfold grid_appendChild at 1, bind at 1, get at 1; rewrite Hg.
  unfold modify at 1.
  rewrite (IH _ (append_child g (element r))) by (destruct s; reflexivity).
  destruct L; destruct s; reflexivity.
Qed.

Lemma displayFilteredResults_eq (L : list recipe) (s : page) :
  displayFilteredResults L s =
  let s1 := set_originalRecipeSections
              (map (fun _ => lit "none") (originalRecipeSections s)) s in
  match filteredResultsGrid s with
  | None => (Throw TypeError, s1)
  | Some _ =>
      let s2 := set_filteredResultsGrid (Some (displayed L)) s1 in
      match resultCountSpan s with
      | None => (Throw TypeError, s2)
      | Some _ =>
          let s3 := set_resultCountSpan
                      (Some (Number_toString (List.length L))) s2 in
          match filteredResultsSection s with
          | None => (Throw TypeError, s3)
          | Some _ =>
              (Normal tt,
               set_effects (effects s ++ [ScrollIntoView FilteredResultsSection])
                 (set_filteredResultsSection (Some (lit "block")) s3))
          end
      end
  end.
Proof.
  unfold displayFilteredResults.
  unfold bind at 1, originals_set_display at 1, modify at 1.
  unfold bind at 1, grid_clear at 1, bind at 1, get at 1.
  cbn [filteredResultsGrid set_originalRecipeSections].
  destruct (filteredResultsGrid s) as [g|] eqn:Hg; [|reflexivity].
  unfold modify at 1.
  unfold bind at 1.
  erewrite forEach_appendChild by (destruct s; reflexivity).
  assert (Hd : forall s0,
    match L with
    | [] => set_filteredResultsGrid (Some []) s0
    | _ :: _ => set_filteredResultsGrid
                  (Some (fold_left append_child (map element L) []))
                  (set_filteredResultsGrid (Some []) s0)
    end = set_filteredResultsGrid (Some (displayed L)) s0).
  { intros s0; destruct L; destruct s0; reflexivity. }
  rewrite Hd; clear Hd.
  unfold bind at 1, resultCount_set_text at 1, bind at 1, get at 1.
  destruct s; cbn in Hg |- *; subst.
  destruct resultCountSpan0; [|reflexivity].
  destruct filteredResultsSection0; reflexivity.
Qed.

Lemma hideFilteredResults_eq (s : page) :
  hideFilteredResults s =
  match filteredResultsSection s with
  | None => (Throw TypeError, s)
  | Some _ =>
      (Normal tt,
       set_originalRecipeSections
         (map (fun _ => lit "block") (originalRecipeSections s))
         (set_filteredResultsSection (Some (lit "none")) s))
  end.
Proof.
  unfold hideFilteredResults, bind, section_set_display, bind, get.
  destruct s; cbn.
  destruct filteredResultsSection0; reflexivity.
Qed.

Lemma applyFilters_eq (s : page) :
  applyFilters s =
  if hasActiveFilters (activeFilters s)
  then displayFilteredResults (filteredRecipes s) s
  else hideFilteredResults s.
Proof.
  unfold applyFilters, bind, get.
  destruct (hasActiveFilters (activeFilters s)); reflexivity.
Qed.

Lemma updateActiveFiltersCount_eq (s : page) :
  updateActiveFiltersCount s =
  (Normal tt,
   match activeFiltersCountSpan s with
   | None => s
   | Some _ =>
       let totalActive :=
         StrSet.size (activeCategory (activeFilters s)) +
         StrSet.size (activeDietary (activeFilters s)) in
       set_activeFiltersCountSpan
         (Some (if totalActive =? 0 then lit EmptyString
                else concat (Number_toString totalActive)
                            (lit " filter(s) active"))) s
   end).
Proof.
  unfold updateActiveFiltersCount, bind, get.
  destruct (activeFiltersCountSpan s); [|reflexivity].
  destruct (_ =? 0); reflexivity.
Qed.

(** ** Appending distinct nodes *)

Lemma append_child_fresh g n :
  ~ In (node_id n) (map node_id g) -> append_child g n = g ++ [n].
Proof.
  intros H; unfold append_child; f_equal.
  induction g as [|c g IH]; simpl in *; [reflexivity|].
  destruct (node_id c =? node_id n) eqn:E.
  - apply Nat.eqb_eq in E; tauto.
  - simpl; f_equal; apply IH; tauto.
Qed.

Lemma fold_append_child_nodup ns : forall g,
  NoDup (map node_id (g ++ ns)) ->
  fold_left append_child ns g = g ++ ns.
Proof.
  induction ns as [|n ns IH]; intros g H; simpl.
  - now rewrite app_nil_r.
  - assert (Hn : ~ In (node_id n) (map node_id g)).
    { rewrite map_app in H; simpl in H.
      apply NoDup_remove_2 in H; rewrite in_app_iff in H; tauto. }
    rewrite append_child_fresh by assumption.
    rewrite IH; rewrite <- app_assoc; simpl; [reflexivity | assumption].
Qed.

Lemma filter_keeps_distinct {X Y : Type} (key : X -> Y) (keep : X -> bool) :
  forall xs : list X,
  NoDup (map key xs) -> NoDup (map key (filter keep xs)).
Proof.
  intros xs; induction xs as [|x xs IH]; simpl; intros H; [constructor|].
  inversion H as [|? ? Hx Hl]; subst.
  destruct (keep x); simpl; [constructor|]; auto.
  intros Hin; apply Hx.
  apply in_map_iff in Hin as (y & <- & Hy).
  apply filter_In in Hy as [Hy _]; now apply in_map.
Qed.

Lemma displayed_nodup (L : list recipe) :
  NoDup (map node_id (map element L)) -> displayed L = map element L.
Proof.
  intros H; unfold displayed.
  now rewrite fold_append_child_nodup.
Qed.

(** ** Displaying the matches *)

(** C5 (as worded) fails on the scenario page: the node put into the grid
    is the stored snapshot of recipe A itself, not a copy of it. *)
Lemma C5_counterexample :
  ~ shows_fresh_copies Scenario.main_dish_selected
      (state_of (recompute Scenario.main_dish_selected)).
Proof.
  intros (g & Hg & _ & Hfresh & _).
  vm_compute in Hg; injection Hg as <-.
  apply (Hfresh (element Scenario.recipeA) Scenario.recipeA).
  - left; reflexivity.
  - vm_compute; left; reflexivity.
  - reflexivity.
Qed.

Lemma recompute_displays_snapshots (s : page) :
  hasActiveFilters (activeFilters s) = true ->
  results_anchors s = true ->
  NoDup (map node_id (map element (allRecipes s))) ->
  completes (recompute s) = true /\
  filteredResultsGrid (state_of (recompute s)) =
    Some (map element (filteredRecipes s)) /\
  resultCountSpan (state_of (recompute s)) =
    Some (Number_toString (List.length (filteredRecipes s))) /\
  filteredResultsSection (state_of (recompute s)) = Some (lit "block") /\
  allRecipes (state_of (recompute s)) = allRecipes s.
Proof.
  intros Hact Hanch Hnd.
  unfold recompute; rewrite applyFilters_eq, Hact, displayFilteredResults_eq.
  assert (Hd : displayed (filteredRecipes s) = map element (filteredRecipes s)).
  { apply displayed_nodup; unfold filteredRecipes.
    rewrite map_map in *; now apply filter_keeps_distinct. }
  unfold results_anchors in Hanch.
  destruct s; cbn in *.
  destruct filteredResultsSection0, filteredResultsGrid0, resultCountSpan0;
    try discriminate; cbn.
  rewrite Hd; repeat split; reflexivity.
Qed.

(** C9. Running the recompute a second time, with the filter state
    untouched in between, leaves the grid contents, the result count and
    the display of the results section and of the original sections as the
    first run left them, and ends the same way. *)
Theorem C9_recompute_idempotent (s : page) :
  view_of (state_of (recompute (state_of (recompute s)))) =
    view_of (state_of (recompute s)) /\
  completes (recompute (state_of (recompute s))) = completes (recompute s) /\
  activeFilters (state_of (recompute s)) = activeFilters s.
Proof.
  unfold recompute.
  rewrite !applyFilters_eq, !displayFilteredResults_eq,
    !hideFilteredResults_eq.
  unfold view_of, state_of, completes, filteredRecipes.
  destruct s as [rs f els nn form sec grid cnt btn lbl orig hd cl kl eff].
  cbn [activeFilters allRecipes filteredResultsGrid resultCountSpan
       filteredResultsSection originalRecipeSections].
  destruct (hasActiveFilters f) eqn:Hact, sec, grid, cnt;
    cbn; rewrite ?Hact; cbn; rewrite ?map_map; repeat split; reflexivity.
Qed.

(** ** Reset *)

Lemma resetFilters_eq (s : page) :
  resetFilters s =
  let s1 := set_activeFilters
              {| activeCategory := []; activeDietary := [] |} s in
  match filterForm s with
  | None => (Throw TypeError, s1)
  | Some controls =>
      let s2 := set_filterForm (Some (map uncheck controls)) s1 in
      match filteredResultsSection s with
      | None => (Throw TypeError, s2)
      | Some _ =>
          let s3 := set_originalRecipeSections
                      (map (fun _ => lit "block") (originalRecipeSections s))
                      (set_filteredResultsSection (Some (lit "none")) s2) in
          let s4 := match activeFiltersCountSpan s with
                    | None => s3
                    | Some _ =>
                        set_activeFiltersCountSpan (Some (lit EmptyString)) s3
                    end in
          (Normal tt,
           if filterHeading s
           then set_effects (effects s ++ [ScrollIntoView FilterHeading]) s4
           else s4)
      end
  end.
Proof.
  destruct s as [rs f els nn form sec grid cnt btn lbl orig hd cl kl eff].
  destruct form, sec, lbl, hd; reflexivity.
Qed.

Lemma uncheck_unchecked (controls : list input) :
  Forall (fun i => type i = lit "checkbox" -> checked i = false)
         (map uncheck controls).
Proof.
  apply Forall_forall; intros i Hi.
  apply in_map_iff in Hi as (j & <- & _).
  unfold uncheck; destruct (str_eqb (type j) (lit "checkbox")) eqn:E.
  - reflexivity.
  - apply str_eqb_neq in E; tauto.
Qed.

Lemma reset_reaches_idle (s : page) (controls : list input) (d : jsstring) :
  filterForm s = Some controls ->
  filteredResultsSection s = Some d ->
  completes (reset s) = true /\ Idle (state_of (reset s)).
Proof.
  intros Hform Hsec.
  unfold reset; rewrite resetFilters_eq, Hform, Hsec.
  assert (Hblock : Forall (fun d0 => d0 = lit "block")
            (map (fun _ : jsstring => lit "block") (originalRecipeSections s))).
  { apply Forall_forall; intros x Hx.
    apply in_map_iff in Hx as (y & <- & _); reflexivity. }
  unfold Idle.
  destruct s as [rs f els nn form sec grid cnt btn lbl orig hd cl kl eff].
  cbn [originalRecipeSections activeFiltersCountSpan filterHeading] in *.
  destruct lbl, hd; cbn -[lit uncheck]; repeat split;
    try assumption; reflexivity.
Qed.

(** C7. Whatever the filter sets and the display were, on a page that has
    the filter form and the results section a reset completes and leaves
    both filter sets empty, every checkbox of the form unchecked, the
    results section hidden, every original section shown and the
    active-filter label, where the page has one, empty: the Idle state. *)
Theorem C7_reset_yields_idle (s : page) (controls : list input)
    (d : jsstring) :
  filterForm s = Some controls ->
  filteredResultsSection s = Some d ->
  completes (reset s) = true /\
  Idle (state_of (reset s)) /\
  activeFilters (state_of (reset s)) =
    {| activeCategory := []; activeDietary := [] |} /\
  filterForm (state_of (reset s)) = Some (map uncheck controls) /\
  Forall (fun i => type i = lit "checkbox" -> checked i = false)
         (map uncheck controls) /\
  filteredResultsSection (state_of (reset s)) = Some (lit "none") /\
  originalRecipeSections (state_of (reset s)) =
    map (fun _ => lit "block") (originalRecipeSections s) /\
  (is_some (activeFiltersCountSpan s) = true ->
   activeFiltersCountSpan (state_of (reset s)) = Some (lit EmptyString)).
Proof.
  intros Hform Hsec.
  unfold reset; rewrite resetFilters_eq, Hform, Hsec.
  pose proof (uncheck_unchecked controls) as Hun.
  assert (Hblock : Forall (fun d0 => d0 = lit "block")
            (map (fun _ : jsstring => lit "block") (originalRecipeSections s))).
  { apply Forall_forall; intros x Hx.
    apply in_map_iff in Hx as (y & <- & _); reflexivity. }
  unfold Idle.
  destruct s as [rs f els nn form sec grid cnt btn lbl orig hd cl kl eff].
  cbn [originalRecipeSections activeFiltersCountSpan filterHeading] in *.
  destruct lbl, hd; cbn -[lit uncheck]; repeat split;
    try assumption; try reflexivity; intros; discriminate.
Qed.

Lemma C7_witness :
  completes (reset Scenario.main_dish_selected) = true /\
  Idle (state_of (reset Scenario.main_dish_selected)) /\
  activeFilters (state_of (reset Scenario.main_dish_selected)) =
    {| activeCategory := []; activeDietary := [] |} /\
  filterForm (state_of (reset Scenario.main_dish_selected)) =
    Some (map uncheck Scenario.form_ticked) /\
  Forall (fun i => type i = lit "checkbox" -> checked i = false)
         (map uncheck Scenario.form_ticked) /\
  filteredResultsSection (state_of (reset Scenario.main_dish_selected)) =
    Some (lit "none") /\
  originalRecipeSections (state_of (reset Scenario.main_dish_selected)) =
    map (fun _ => lit "block")
        (originalRecipeSections Scenario.main_dish_selected) /\
  (is_some (activeFiltersCountSpan Scenario.main_dish_selected) = true ->
   activeFiltersCountSpan (state_of (reset Scenario.main_dish_selected)) =
     Some (lit EmptyString)).
Proof.
  apply (C7_reset_yields_idle Scenario.main_dish_selected
           Scenario.form_ticked (lit "block")); reflexivity.
Defined.

(** ** Toggling a checkbox *)

Lemma dietary_is_not_category :
  str_eqb (lit "dietary") (lit "category") = false.
Proof. reflexivity. Qed.

Lemma toggle_eq (ft v : jsstring) (on : bool) (s : page) :
  ft = lit "category" \/ ft = lit "dietary" ->
  toggle ft v on s =
  (applyFilters ;;; updateActiveFiltersCount)
    (set_activeFilters (toggled ft v on (activeFilters s)) s).
Proof.
  intros Hft; unfold toggle, handleFilterChange, checkbox, toggled.
  cbn [type name value checked]; rewrite str_eqb_refl; cbn [negb].
  unfold bind at 1.
  destruct Hft; subst ft; destruct on; unfold filters_update, bind, get,
    modify; rewrite ?str_eqb_refl, ?dietary_is_not_category; reflexivity.
Qed.

Lemma refresh_eq (s : page) :
  results_anchors s = true ->
  (applyFilters ;;; updateActiveFiltersCount) s = (Normal tt, refreshed s).
Proof.
  intros H; unfold bind, refreshed.
  rewrite applyFilters_eq, displayFilteredResults_eq, hideFilteredResults_eq.
  unfold results_anchors in H.
  destruct s as [rs f els nn form sec grid cnt btn lbl orig hd cl kl eff].
  cbn [filteredResultsSection filteredResultsGrid resultCountSpan is_some]
    in *.
  destruct sec, grid, cnt; try discriminate.
  destruct (hasActiveFilters _); cbv zeta;
    rewrite updateActiveFiltersCount_eq; reflexivity.
Qed.

Lemma toggle_refreshed (ft v : jsstring) (on : bool) (s : page) :
  ft = lit "category" \/ ft = lit "dietary" ->
  results_anchors s = true ->
  toggle ft v on s =
  (Normal tt,
   refreshed (set_activeFilters (toggled ft v on (activeFilters s)) s)).
Proof.
  intros Hft H; rewrite toggle_eq by assumption.
  apply refresh_eq; destruct s; exact H.
Qed.

Lemma refreshed_anchors (s : page) :
  results_anchors s = true -> results_anchors (refreshed s) = true.
Proof.
  unfold refreshed; rewrite updateActiveFiltersCount_eq.
  destruct s as [rs f els nn form sec grid cnt btn lbl orig hd cl kl eff].
  unfold results_anchors, state_of.
  cbn [filteredResultsSection filteredResultsGrid resultCountSpan
       activeFilters snd].
  destruct sec, grid, cnt; try discriminate; intros _.
  destruct (hasActiveFilters f), lbl; reflexivity.
Qed.

Lemma hasActive_toggled_on ft v f :
  hasActiveFilters (toggled ft v true f) = true.
Proof.
  unfold hasActiveFilters, toggled.
  assert (H : forall st, (0 <? StrSet.size (StrSet.add st v)) = true).
  { intros st; apply Nat.ltb_lt; unfold StrSet.add, StrSet.size.
    destruct (StrSet.has st v) eqn:E.
    - apply has_In in E; destruct st; [destruct E | simpl; lia].
    - rewrite length_app; simpl; lia. }
  destruct (str_eqb ft (lit "category")); cbn [activeCategory activeDietary];
    rewrite H; [reflexivity | apply orb_true_r].
Qed.

Lemma toggled_off_on ft v f :
  ~ In v (selected ft f) ->
  toggled ft v false (toggled ft v true f) = f.
Proof.
  unfold selected, toggled.
  destruct (str_eqb ft (lit "category")); cbn [activeCategory activeDietary];
    intros H; rewrite delete_add_notin by assumption; destruct f; reflexivity.
Qed.

Lemma refreshed_activeFilters (s : page) :
  activeFilters (refreshed s) = activeFilters s.
Proof.
  unfold refreshed; rewrite updateActiveFiltersCount_eq.
  destruct s as [rs f els nn form sec grid cnt btn lbl orig hd cl kl eff].
  unfold state_of; cbn [activeFilters snd].
  destruct (hasActiveFilters f), lbl; reflexivity.
Qed.

Lemma allRecipes_refreshed (s : page) :
  allRecipes (refreshed s) = allRecipes s.
Proof.
  unfold refreshed; rewrite updateActiveFiltersCount_eq.
  destruct s as [rs f els nn form sec grid cnt btn lbl orig hd cl kl eff].
  unfold state_of; cbn [activeFilters snd].
  destruct (hasActiveFilters f), lbl; reflexivity.
Qed.

Lemma view_refreshed (s : page) :
  view_of (refreshed s) =
  refresh_view (activeFilters s) (allRecipes s) (view_of s).
Proof.
  unfold refreshed, refresh_view; rewrite updateActiveFiltersCount_eq.
  destruct s as [rs f els nn form sec grid cnt btn lbl orig hd cl kl eff].
  unfold state_of, filteredRecipes; cbn [activeFilters allRecipes snd].
  destruct (hasActiveFilters f), lbl; reflexivity.
Qed.

Lemma label_refreshed (s : page) :
  activeFiltersCountSpan (refreshed s) =
  label_for (activeFilters s) (activeFiltersCountSpan s).
Proof.
  unfold refreshed, label_for; rewrite updateActiveFiltersCount_eq.
  destruct s as [rs f els nn form sec grid cnt btn lbl orig hd cl kl eff].
  unfold state_of; cbn [activeFilters snd].
  destruct (hasActiveFilters f), lbl; reflexivity.
Qed.

Lemma label_updateCount (s : page) :
  activeFiltersCountSpan (state_of (updateCount s)) =
  label_for (activeFilters s) (activeFiltersCountSpan s).
Proof.
  unfold updateCount, label_for; rewrite updateActiveFiltersCount_eq.
  destruct s as [rs f els nn form sec grid cnt btn lbl orig hd cl kl eff].
  destruct lbl; reflexivity.
Qed.

Lemma view_recompute (s : page) :
  results_anchors s = true ->
  view_of (state_of (recompute s)) =
  refresh_view (activeFilters s) (allRecipes s) (view_of s).
Proof.
  intros H; unfold recompute, refresh_view.
  rewrite applyFilters_eq, displayFilteredResults_eq, hideFilteredResults_eq.
  unfold results_anchors in H.
  destruct s as [rs f els nn form sec grid cnt btn lbl orig hd cl kl eff].
  cbn [filteredResultsSection filteredResultsGrid resultCountSpan is_some]
    in *.
  destruct sec, grid, cnt; try discriminate.
  unfold filteredRecipes; cbn [activeFilters allRecipes].
  destruct (hasActiveFilters f); reflexivity.
Qed.

Lemma activeFilters_set f (s : page) :
  activeFilters (set_activeFilters f s) = f.
Proof. reflexivity. Qed.

Lemma allRecipes_set f (s : page) :
  allRecipes (set_activeFilters f s) = allRecipes s.
Proof. reflexivity. Qed.

Lemma view_set f (s : page) : view_of (set_activeFilters f s) = view_of s.
Proof. reflexivity. Qed.

Lemma label_set f (s : page) :
  activeFiltersCountSpan (set_activeFilters f s) = activeFiltersCountSpan s.
Proof. reflexivity. Qed.

Lemma label_for_twice f g l : label_for f (label_for g l) = label_for f l.
Proof. destruct l; reflexivity. Qed.

Lemma on_then_off_eq (ft v : jsstring) (s : page) :
  ft = lit "category" \/ ft = lit "dietary" ->
  ~ In v (selected ft (activeFilters s)) ->
  results_anchors s = true ->
  on_then_off ft v s =
  refreshed (set_activeFilters (activeFilters s)
    (refreshed (set_activeFilters (toggled ft v true (activeFilters s)) s))).
Proof.
  intros Hft Hv Ha; unfold on_then_off.
  rewrite (toggle_refreshed ft v true s Hft Ha); unfold state_of at 2;
    cbn [snd].
  rewrite toggle_refreshed; trivial.
  - unfold state_of; cbn [snd].
    rewrite refreshed_activeFilters.
    replace (activeFilters (set_activeFilters _ s))
      with (toggled ft v true (activeFilters s)) by (destruct s; reflexivity).
    now rewrite toggled_off_on.
  - apply refreshed_anchors; destruct s; exact Ha.
Qed.

(** C8 (as worded) fails on the scenario page: [main-dish] is already
    selected, so switching its checkbox on and off again leaves no filter
    selected. *)
Lemma C8_counterexample :
  ~ round_trip (lit "category") (lit "main-dish") Scenario.main_dish_selected.
Proof.
  intros [H _]; vm_compute in H; discriminate H.
Qed.

(** C8 (amended). For a filter type [category] or [dietary] and a value
    that is not yet in that filter set, on a page that has the results
    section, grid and count element, switching the checkbox on and then off
    returns the filter state to what it was, and the display of the
    sections and the active-filter label are those a recompute and a count
    update give for that filter state. If the page was showing just that
    before, the display of the results section and of the original
    sections and the label return to what they were; with at least one
    filter active the grid contents and the result count return as well,
    and with none active the hidden grid and the result count keep the
    matches of the intermediate state. *)
Theorem C8_round_trip_unchecked (ft v : jsstring) (s : page) :
  ft = lit "category" \/ ft = lit "dietary" ->
  ~ In v (selected ft (activeFilters s)) ->
  results_anchors s = true ->
  activeFilters (on_then_off ft v s) = activeFilters s /\
  results_display (view_of (on_then_off ft v s)) =
    results_display (view_of (state_of (recompute s))) /\
  originals_display (view_of (on_then_off ft v s)) =
    originals_display (view_of (state_of (recompute s))) /\
  activeFiltersCountSpan (on_then_off ft v s) =
    activeFiltersCountSpan (state_of (updateCount s)) /\
  (hasActiveFilters (activeFilters s) = true ->
   view_of (on_then_off ft v s) = view_of (state_of (recompute s))) /\
  (hasActiveFilters (activeFilters s) = false ->
   shown (view_of (on_then_off ft v s)) =
     Some (displayed
             (filter (recipe_matches (toggled ft v true (activeFilters s)))
                     (allRecipes s))) /\
   count (view_of (on_then_off ft v s)) =
     Some (Number_toString
             (List.length
                (filter (recipe_matches (toggled ft v true (activeFilters s)))
                        (allRecipes s))))) /\
  (settled s ->
   results_display (view_of (on_then_off ft v s)) =
     results_display (view_of s) /\
   originals_display (view_of (on_then_off ft v s)) =
     originals_display (view_of s) /\
   activeFiltersCountSpan (on_then_off ft v s) = activeFiltersCountSpan s /\
   (hasActiveFilters (activeFilters s) = true ->
    view_of (on_then_off ft v s) = view_of s)).
Proof.
  intros Hft Hv Ha.
  pose proof (hasActive_toggled_on ft v (activeFilters s)) as Hon.
  unfold settled.
  rewrite view_recompute by assumption.
  rewrite label_updateCount.
  rewrite on_then_off_eq by assumption.
  rewrite refreshed_activeFilters, view_refreshed, label_refreshed.
  rewrite !activeFilters_set, !allRecipes_set, !view_set, !label_set.
  rewrite allRecipes_refreshed, view_refreshed, label_refreshed.
  rewrite !activeFilters_set, !allRecipes_set, !view_set, !label_set.
  rewrite label_for_twice.
  set (w := view_of s) in *.
  set (F := activeFilters s) in *.
  set (rs := allRecipes s) in *.
  assert (E1 : refresh_view (toggled ft v true F) rs w =
    {| shown := Some (displayed
                        (filter (recipe_matches (toggled ft v true F)) rs));
       count := Some (Number_toString (List.length
                        (filter (recipe_matches (toggled ft v true F)) rs)));
       results_display := Some (lit "block");
       originals_display :=
         map (fun _ => lit "none") (originals_display w) |}).
  { unfold refresh_view; now rewrite Hon. }
  rewrite E1; clear E1.
  assert (Hvis : results_display
                   (refresh_view F rs
                      {| shown := Some (displayed
                           (filter (recipe_matches (toggled ft v true F)) rs));
                         count := Some (Number_toString (List.length
                           (filter (recipe_matches (toggled ft v true F)) rs)));
                         results_display := Some (lit "block");
                         originals_display :=
                           map (fun _ => lit "none") (originals_display w) |})
                 = results_display (refresh_view F rs w) /\
                 originals_display
                   (refresh_view F rs
                      {| shown := Some (displayed
                           (filter (recipe_matches (toggled ft v true F)) rs));
                         count := Some (Number_toString (List.length
                           (filter (recipe_matches (toggled ft v true F)) rs)));
                         results_display := Some (lit "block");
                         originals_display :=
                           map (fun _ => lit "none") (originals_display w) |})
                 = originals_display (refresh_view F rs w)).
  { unfold refresh_view; destruct (hasActiveFilters F);
      cbn [results_display originals_display]; rewrite map_map; auto. }
  assert (Hactive : hasActiveFilters F = true ->
                    refresh_view F rs
                      {| shown := Some (displayed
                           (filter (recipe_matches (toggled ft v true F)) rs));
                         count := Some (Number_toString (List.length
                           (filter (recipe_matches (toggled ft v true F)) rs)));
                         results_display := Some (lit "block");
                         originals_display :=
                           map (fun _ => lit "none") (originals_display w) |}
                    = refresh_view F rs w).
  { intros Hact; unfold refresh_view; rewrite Hact;
      cbn [originals_display]; now rewrite map_map. }
  destruct Hvis as [Hvis1 Hvis2].
  split; [reflexivity|].
  split; [exact Hvis1|].
  split; [exact Hvis2|].
  split; [reflexivity|].
  split; [exact Hactive|].
  split.
  - intros Hact; unfold refresh_view; rewrite Hact; split; reflexivity.
  - intros [Hview Hlabel].
    rewrite Hvis1, Hvis2, Hview, Hlabel.
    repeat split.
    intros Hact; rewrite (Hactive Hact); exact Hview.
Qed.

Lemma C8_witness :
  activeFilters (on_then_off (lit "dietary") (lit "halal")
                   Scenario.main_dish_selected) =
    activeFilters Scenario.main_dish_selected /\
  view_of (on_then_off (lit "dietary") (lit "halal")
             Scenario.main_dish_selected) =
    view_of Scenario.main_dish_selected.
Proof.
  destruct (C8_round_trip_unchecked (lit "dietary") (lit "halal")
              Scenario.main_dish_selected)
    as (Hf & _ & _ & _ & _ & _ & Hsettled).
  - right; reflexivity.
  - vm_compute; intuition discriminate.
  - vm_compute; reflexivity.
  - destruct Hsettled as (_ & _ & _ & Hv);
      [split; vm_compute; reflexivity|].
    split; [exact Hf | apply Hv; vm_compute; reflexivity].
Defined.

(** ** Initialization *)

Lemma mapM_cloneNode (cs : list card) : forall s : page,
  mapM (fun c =>
          e <- cloneNode (card_node c) ;;
          ret {| element := e;
                 category := or_empty (data_category c);
                 ingredients := parse_tags (data_ingredients c);
                 dietary := parse_tags (data_dietary c) |}) cs s =
  (Normal (snapshots (next_node s) cs),
   set_next_node (next_node s + List.length cs) s).
Proof.
  induction cs as [|c cs IH]; intros s.
  - destruct s; cbn; now rewrite Nat.add_0_r.
  - cbn [mapM snapshots List.length].
    unfold bind at 1, bind at 1, cloneNode at 1, ret at 1.
    unfold bind at 1; rewrite IH.
    destruct s; cbn; now rewrite Nat.add_succ_r.
Qed.

Lemma collectRecipeData_eq (s : page) :
  collectRecipeData s =
  (Normal tt,
   set_effects
     (effects s ++
      [ConsoleLog (concat (lit "Collected ")
         (concat (Number_toString (List.length (recipeCards s)))
                 (lit " recipes")))])
     (set_allRecipes (snapshots (next_node s) (recipeCards s))
        (set_next_node (next_node s + List.length (recipeCards s)) s))).
Proof.
  unfold collectRecipeData, bind at 1, get at 1.
  unfold bind at 1; rewrite mapM_cloneNode.
  assert (Hlen : forall n cs, List.length (snapshots n cs) = List.length cs).
  { intros n cs; revert n; induction cs; simpl; auto. }
  unfold bind, modify, perform, modify; rewrite Hlen.
  destruct s; reflexivity.
Qed.

Lemma setupEventListeners_eq (s : page) :
  setupEventListeners s =
  (Normal tt,
   set_clickListener (clickListener s || resetButton s)
     (set_changeListener (changeListener s || is_some (filterForm s)) s)).
Proof.
  destruct s as [rs f els nn form sec grid cnt btn lbl orig hd cl kl eff].
  destruct form, btn, cl, kl; reflexivity.
Qed.

Lemma setup_eq (s : page) :
  setup s =
  (Normal tt,
   snd (updateActiveFiltersCount
     (set_clickListener (clickListener s || resetButton s)
       (set_changeListener (changeListener s || is_some (filterForm s))
         (snd (collectRecipeData s)))))).
Proof.
  unfold setup, bind.
  rewrite collectRecipeData_eq, setupEventListeners_eq.
  cbn [snd].
  match goal with
  | |- updateActiveFiltersCount ?X = _ =>
      rewrite (updateActiveFiltersCount_eq X)
  end.
  rewrite updateActiveFiltersCount_eq.
  destruct s as [rs f els nn form sec grid cnt btn lbl orig hd cl kl eff].
  reflexivity.
Qed.

Lemma setup_allRecipes (s : page) :
  allRecipes (state_of (setup s)) = snapshots (next_node s) (recipeCards s).
Proof.
  rewrite setup_eq, collectRecipeData_eq, updateActiveFiltersCount_eq.
  destruct s as [rs f els nn form sec grid cnt btn lbl orig hd cl kl eff].
  destruct lbl; reflexivity.
Qed.

Lemma nth_error_snapshots (cs : list card) : forall n i c,
  nth_error cs i = Some c ->
  nth_error (snapshots n cs) i =
  Some {| element := {| node_id := n + i;
                        outerHTML := outerHTML (card_node c) |};
          category := or_empty (data_category c);
          ingredients := parse_tags (data_ingredients c);
          dietary := parse_tags (data_dietary c) |}.
Proof.
  induction cs as [|c0 cs IH]; intros n [|i] c H; try discriminate.
  - injection H as ->; simpl; now rewrite Nat.add_0_r.
  - simpl in *; rewrite (IH (S n) i c H), Nat.add_succ_r; reflexivity.
Qed.

Lemma parse_tags_no_whitespace (attr : option jsstring) :
  forallb (fun ch => negb (isWhiteSpace ch)) (or_empty attr) = true ->
  parse_tags attr = spec_tags attr.
Proof.
  intros H; unfold parse_tags, spec_tags.
  pose proof (split_no_ws comma (or_empty attr) H) as Hs.
  induction (split comma (or_empty attr)) as [|t ts IH]; [reflexivity|].
  inversion Hs as [|? ? Ht Hts]; subst.
  cbn [map filter]; rewrite (trim_id t Ht), (IH Hts); reflexivity.
Qed.

(** C4 (as worded) fails for a card whose dietary attribute is written
    [vegan, halal]: the second stored token keeps its leading space. *)
Lemma C4_counterexample :
  map dietary
      (allRecipes (state_of (setup (Scenario.served [Scenario.cardSpaced]))))
  <> map (fun c => spec_tags (data_dietary c)) [Scenario.cardSpaced].
Proof.
  intros H; vm_compute in H; discriminate H.
Qed.

(** C4 (amended). After initialization the record of every recipe card
    holds as dietary field the comma-separated pieces of the card's dietary
    attribute whose trimmed form is not empty, each piece kept as written
    (not trimmed); an absent attribute gives the empty list, and for an
    attribute without white space the field is the list of trimmed
    non-empty tokens. *)
Theorem C4_dietary_tokens_as_written (s : page) (i : nat) (c : card) :
  nth_error (recipeCards s) i = Some c ->
  exists r,
    nth_error (allRecipes (state_of (setup s))) i = Some r /\
    dietary r =
      filter (fun t => truthy (trim t))
             (split comma (or_empty (data_dietary c))) /\
    (data_dietary c = None -> dietary r = []) /\
    (forallb (fun ch => negb (isWhiteSpace ch))
             (or_empty (data_dietary c)) = true ->
     dietary r = spec_tags (data_dietary c)).
Proof.
  intros Hc; rewrite setup_allRecipes.
  eexists; split; [apply nth_error_snapshots; exact Hc|].
  cbn [dietary]; repeat split.
  - intros ->; reflexivity.
  - apply parse_tags_no_whitespace.
Qed.

Lemma C4_witness :
  exists r,
    nth_error (allRecipes (state_of (setup
                 (Scenario.served [Scenario.cardSpaced; Scenario.cardB]))))
              0 = Some r /\
    dietary r = [lit "vegan"; lit " halal"].
Proof.
  destruct (C4_dietary_tokens_as_written
              (Scenario.served [Scenario.cardSpaced; Scenario.cardB])
              0 Scenario.cardSpaced eq_refl) as (r & Hr & Hd & _).
  exists r; split; [exact Hr | exact Hd].
Defined.

(** ** Missing elements *)

(** C3 (as worded) fails on the scenario page served without the results
    grid: the change event of a second checkbox throws, and the
    active-filter label, which does not depend on the grid, is left at its
    old text. *)
Lemma C3_counterexample :
  completes (toggle (lit "dietary") (lit "vegan") true
               Scenario.without_grid) = false /\
  completes (recompute Scenario.without_grid) = false /\
  activeFiltersCountSpan
    (state_of (toggle (lit "dietary") (lit "vegan") true
                 Scenario.without_grid)) =
    Some (lit "1 filter(s) active").
Proof.
  repeat split; vm_compute; reflexivity.
Qed.

(** C3 (amended). The guarded elements are the active-filter label, the
    filter heading, and, when the listeners are registered, the form and
    the reset button: a count update always completes and does nothing
    without the label; setup always completes and registers each listener
    only if its element exists, and an event without listener changes
    nothing; with the results section, grid and count element present a
    recompute and a checkbox change complete whatever else is absent; with
    the form and the results section present a reset completes and reaches
    the Idle state whatever else is absent. *)
Theorem C3_guarded_elements (s : page) :
  (completes (updateCount s) = true /\
   (activeFiltersCountSpan s = None -> state_of (updateCount s) = s)) /\
  (completes (setup s) = true /\
   changeListener (state_of (setup s)) =
     changeListener s || is_some (filterForm s) /\
   clickListener (state_of (setup s)) =
     clickListener s || resetButton s) /\
  (forall t, changeListener s = false ->
             dispatch_change t s = (Normal tt, s)) /\
  (clickListener s = false -> dispatch_click s = (Normal tt, s)) /\
  (results_anchors s = true ->
   completes (recompute s) = true /\
   forall ft v on, ft = lit "category" \/ ft = lit "dietary" ->
     completes (toggle ft v on s) = true) /\
  (is_some (filterForm s) && is_some (filteredResultsSection s) = true ->
   completes (reset s) = true /\ Idle (state_of (reset s))).
Proof.
  split; [split|split; [split; [|split]|split; [|split; [|split]]]].
  - unfold updateCount; now rewrite updateActiveFiltersCount_eq.
  - unfold updateCount; rewrite updateActiveFiltersCount_eq.
    now intros ->.
  - now rewrite setup_eq.
  - rewrite setup_eq, collectRecipeData_eq, updateActiveFiltersCount_eq.
    destruct s as [rs f els nn form sec grid cnt btn lbl orig hd cl kl eff].
    destruct lbl; reflexivity.
  - rewrite setup_eq, collectRecipeData_eq, updateActiveFiltersCount_eq.
    destruct s as [rs f els nn form sec grid cnt btn lbl orig hd cl kl eff].
    destruct lbl; reflexivity.
  - intros t H; unfold dispatch_change, bind, get; now rewrite H.
  - intros H; unfold dispatch_click, bind, get; now rewrite H.
  - intros H; split.
    + unfold recompute; rewrite applyFilters_eq, displayFilteredResults_eq,
        hideFilteredResults_eq.
      unfold results_anchors in H.
      destruct (filteredResultsSection s), (filteredResultsGrid s),
        (resultCountSpan s); try discriminate.
      destruct (hasActiveFilters _); reflexivity.
    + intros ft v on Hft; now rewrite toggle_refreshed.
  - intros H.
    destruct (filterForm s) as [controls|] eqn:Hf; [|discriminate].
    destruct (filteredResultsSection s) as [d|] eqn:Hs; [|discriminate].
    apply (reset_reaches_idle s controls d Hf Hs).
Qed.

Lemma C3_witness :
  completes (recompute Scenario.without_label) = true /\
  completes (toggle (lit "dietary") (lit "vegan") true
               Scenario.without_label) = true /\
  state_of (updateCount Scenario.without_label) = Scenario.without_label.
Proof.
  destruct (C3_guarded_elements Scenario.without_label)
    as ((_ & Hu) & _ & _ & _ & Hr & _).
  destruct (Hr eq_refl) as [H1 H2].
  split; [exact H1|].
  split; [apply H2; right; reflexivity | apply Hu; reflexivity].
Defined.

(** ** The stored recipes over the life of the page *)

Lemma refresh_allRecipes (s : page) :
  allRecipes (state_of ((applyFilters ;;; updateActiveFiltersCount) s)) =
  allRecipes s.
Proof.
  unfold bind; rewrite applyFilters_eq, displayFilteredResults_eq,
    hideFilteredResults_eq.
  destruct s as [rs f els nn form sec grid cnt btn lbl orig hd cl kl eff].
  cbn [filteredResultsSection filteredResultsGrid resultCountSpan
       activeFilters].
  destruct (hasActiveFilters f), sec, grid, cnt; cbv zeta;
    try reflexivity; rewrite updateActiveFiltersCount_eq;
    cbn [activeFiltersCountSpan set_originalRecipeSections
         set_filteredResultsSection set_effects set_resultCountSpan
         set_filteredResultsGrid];
    destruct lbl; reflexivity.
Qed.

Lemma handleFilterChange_allRecipes (t : input) (s : page) :
  allRecipes (state_of (handleFilterChange t s)) = allRecipes s.
Proof.
  unfold handleFilterChange.
  destruct (str_eqb (type t) (lit "checkbox")); cbn [negb]; [|reflexivity].
  assert (H : forall op,
    allRecipes (state_of
      ((filters_update (name t) op ;;;
        applyFilters ;;; updateActiveFiltersCount) s)) = allRecipes s).
  { intros op; unfold bind at 1, filters_update, bind at 1, get at 1.
    destruct (str_eqb (name t) (lit "category"));
      [|destruct (str_eqb (name t) (lit "dietary"))];
      unfold modify, throw; try reflexivity;
      rewrite refresh_allRecipes; destruct s; reflexivity. }
  destruct (checked t); apply H.
Qed.

Lemma resetFilters_allRecipes (s : page) :
  allRecipes (state_of (resetFilters s)) = allRecipes s.
Proof.
  rewrite resetFilters_eq.
  destruct s as [rs f els nn form sec grid cnt btn lbl orig hd cl kl eff].
  cbn [filterForm filteredResultsSection activeFiltersCountSpan
       filterHeading].
  destruct form, sec, lbl, hd; reflexivity.
Qed.

Lemma dispatch_allRecipes (e : event) (s : page) :
  allRecipes (state_of (dispatch e s)) = allRecipes s.
Proof.
  destruct e as [t|]; unfold dispatch, dispatch_change, dispatch_click,
    bind, get.
  - destruct (changeListener s); [apply handleFilterChange_allRecipes|
                                  reflexivity].
  - destruct (clickListener s); [apply resetFilters_allRecipes|reflexivity].
Qed.

Lemma after_allRecipes (s0 : page) (es : list event) :
  allRecipes (after s0 es) = snapshots (next_node s0) (recipeCards s0).
Proof.
  unfold after; rewrite <- setup_allRecipes.
  generalize (state_of (setup s0)) as s; induction es as [|e es IH];
    intros s; [reflexivity|].
  cbn [run]; now rewrite IH, dispatch_allRecipes.
Qed.

Lemma snapshots_nodes (cs : list card) : forall n,
  map node_id (map element (snapshots n cs)) = seq n (List.length cs).
Proof.
  induction cs as [|c cs IH]; intros n; [reflexivity|].
  cbn; now rewrite IH.
Qed.

(** C5 (amended). On a page that has been set up and has handled any
    events, a recompute with at least one active filter, the results
    section, grid and count element being present, completes and leaves in
    the grid exactly the stored snapshots of the matching recipes (the
    clones made by [collectRecipeData], themselves and not copies of them)
    in capture order; the result count is the number of matches and the
    results section is shown. *)
Theorem C5_snapshots_displayed (s0 : page) (es : list event) :
  hasActiveFilters (activeFilters (after s0 es)) = true ->
  results_anchors (after s0 es) = true ->
  completes (recompute (after s0 es)) = true /\
  filteredResultsGrid (state_of (recompute (after s0 es))) =
    Some (map element (filteredRecipes (after s0 es))) /\
  resultCountSpan (state_of (recompute (after s0 es))) =
    Some (Number_toString (List.length (filteredRecipes (after s0 es)))) /\
  filteredResultsSection (state_of (recompute (after s0 es))) =
    Some (lit "block") /\
  allRecipes (state_of (recompute (after s0 es))) =
    snapshots (next_node s0) (recipeCards s0).
Proof.
  intros Hact Hanch.
  destruct (recompute_displays_snapshots (after s0 es) Hact Hanch)
    as (H1 & H2 & H3 & H4 & H5).
  - rewrite after_allRecipes, snapshots_nodes; apply seq_NoDup.
  - rewrite H5, after_allRecipes; auto.
Qed.

Lemma C5_witness :
  filteredResultsGrid
    (state_of (recompute
       (after (Scenario.served [Scenario.cardA; Scenario.cardB])
              [Change (checkbox (lit "category") (lit "main-dish") true)]))) =
    Some [element Scenario.recipeA] /\
  resultCountSpan
    (state_of (recompute
       (after (Scenario.served [Scenario.cardA; Scenario.cardB])
              [Change (checkbox (lit "category") (lit "main-dish") true)]))) =
    Some (lit "1").
Proof.
  destruct (C5_snapshots_displayed
              (Scenario.served [Scenario.cardA; Scenario.cardB])
              [Change (checkbox (lit "category") (lit "main-dish") true)])
    as (_ & Hg & Hc & _).
  - reflexivity.
  - reflexivity.
  - split; [exact Hg | exact Hc].
Defined.

Lemma distinct_keys_inj {X Y : Type} (key : X -> Y) (xs : list X) (a b : X) :
  NoDup (map key xs) -> In a xs -> In b xs -> key a = key b -> a = b.
Proof.
  induction xs as [|x xs IH]; intros Hnd Ha Hb Hk; [destruct Ha|].
  inversion Hnd as [|? ? Hx Hxs]; subst.
  destruct Ha as [->|Ha], Hb as [->|Hb]; trivial.
  - exfalso; apply Hx; rewrite Hk; now apply in_map.
  - exfalso; apply Hx; rewrite <- Hk; now apply in_map.
  - now apply IH.
Qed.

(** C1. On a page that has been set up and has handled any events, take
    any filter state and any captured recipe. With a filter active, the
    recompute leaves the recipe's element in the results grid exactly when
    (no category is selected or its category is one of the selected ones)
    and (no dietary tag is selected or every selected dietary tag is among
    its dietary tags): categories combine with OR, dietary tags with AND.
    With no filter active that condition holds of every recipe, and the
    recompute shows the unfiltered page: the results section is hidden and
    every original section is displayed. *)
Theorem C1_filter_predicate (s0 : page) (es : list event) (F : filters)
    (r : recipe) :
  In r (allRecipes (after s0 es)) ->
  results_anchors (after s0 es) = true ->
  (hasActiveFilters F = true ->
   exists g,
     filteredResultsGrid
       (state_of (recompute (set_activeFilters F (after s0 es)))) = Some g /\
     (In (element r) g <->
      (activeCategory F = [] \/ In (category r) (activeCategory F)) /\
      (activeDietary F = [] \/ incl (activeDietary F) (dietary r)))) /\
  (hasActiveFilters F = false ->
   ((activeCategory F = [] \/ In (category r) (activeCategory F)) /\
    (activeDietary F = [] \/ incl (activeDietary F) (dietary r))) /\
   filteredResultsSection
     (state_of (recompute (set_activeFilters F (after s0 es)))) =
     Some (lit "none") /\
   originalRecipeSections
     (state_of (recompute (set_activeFilters F (after s0 es)))) =
     map (fun _ => lit "block") (originalRecipeSections (after s0 es))).
Proof.
  intros Hr Ha.
  assert (Hnd : NoDup (map node_id (map element (allRecipes (after s0 es))))).
  { rewrite after_allRecipes, snapshots_nodes; apply seq_NoDup. }
  set (s := after s0 es) in *.
  assert (Ha' : results_anchors (set_activeFilters F s) = true)
    by (destruct s; exact Ha).
  split; intros Hact.
  - assert (Hact' : hasActiveFilters
                      (activeFilters (set_activeFilters F s)) = true)
      by (rewrite activeFilters_set; exact Hact).
    assert (Hnd' : NoDup (map node_id (map element
                     (allRecipes (set_activeFilters F s)))))
      by (rewrite allRecipes_set; exact Hnd).
    destruct (recompute_displays_snapshots (set_activeFilters F s)
                Hact' Ha' Hnd') as (_ & Hg & _).
    exists (map element (filteredRecipes (set_activeFilters F s))).
    split; [exact Hg|].
    rewrite <- (activeFilters_set F s) at 2 3 4 5.
    rewrite in_map_iff; split.
    + intros (r' & He & Hr').
      pose proof Hr' as Hin; apply filteredRecipes_spec in Hin.
      rewrite allRecipes_set in Hin; destruct Hin as (Hin & _).
      assert (r' = r) as ->.
      { apply (distinct_keys_inj (fun x => node_id (element x))
                 (allRecipes s)); trivial.
        - now rewrite <- map_map.
        - now rewrite He. }
      now apply filteredRecipes_spec in Hr'.
    + intros Hp; exists r; split; [reflexivity|].
      apply filteredRecipes_spec; rewrite allRecipes_set; tauto.
  - split.
    + unfold hasActiveFilters, StrSet.size in Hact.
      destruct (activeCategory F), (activeDietary F); try discriminate.
      split; now left.
    + unfold recompute; rewrite applyFilters_eq, activeFilters_set, Hact,
        hideFilteredResults_eq.
      unfold results_anchors in Ha.
      destruct s as [rs f els nn form sec grid cnt btn lbl orig hd cl kl eff].
      cbn [filteredResultsSection filteredResultsGrid resultCountSpan
           is_some set_activeFilters] in *.
      destruct sec; [split; reflexivity | discriminate].
Qed.

Lemma C1_witness :
  exists g,
    filteredResultsGrid
      (state_of (recompute
         (set_activeFilters
            {| activeCategory := [lit "main-dish"];
               activeDietary := [lit "halal"] |}
            (after (Scenario.served [Scenario.cardA; Scenario.cardB]) [])))) =
      Some g /\
    In (element Scenario.recipeA) g.
Proof.
  destruct (C1_filter_predicate
              (Scenario.served [Scenario.cardA; Scenario.cardB]) []
              {| activeCategory := [lit "main-dish"];
                 activeDietary := [lit "halal"] |}
              Scenario.recipeA) as (Hactive & _).
  - vm_compute; left; reflexivity.
  - reflexivity.
  - destruct (Hactive eq_refl) as (g & Hg & Hiff).
    exists g; split; [exact Hg|].
    apply Hiff; split; right.
    + left; reflexivity.
    + intros d Hd; vm_compute in Hd |- *; tauto.
Defined.


(** ** The include resolver *)
Import Includes.

(** *** Trees and paths *)

Lemma above_irrefl (p : path) : above p p = false.
Proof.
  induction p as [|i p IH]; [reflexivity|].
  cbn; now rewrite Nat.eqb_refl.
Qed.

Lemma above_trans (a p q : path) :
  above a p = true -> above p q = true -> above a q = true.
Proof.
  revert p q; induction a as [|i a IH]; intros [|j p] [|k q] H1 H2;
    try discriminate; try reflexivity.
  cbn in *; apply andb_prop in H1 as [E1 H1], H2 as [E2 H2].
  apply Nat.eqb_eq in E1, E2; subst.
  rewrite Nat.eqb_refl; cbn; now apply (IH p q).
Qed.

Lemma above_asym (p q : path) : above p q = true -> above q p = false.
Proof.
  intros H; destruct (above q p) eqn:E; [|reflexivity].
  rewrite <- (above_irrefl p); symmetry; now apply (above_trans p q p).
Qed.

Lemma nth_error_update_nth_same {A} (f : A -> A) (l : list A) : forall i,
  nth_error (update_nth i f l) i = option_map f (nth_error l i).
Proof.
  induction l as [|x l IH]; intros [|i]; cbn; auto.
Qed.

Lemma nth_error_update_nth_other {A} (f : A -> A) (l : list A) : forall i j,
  i <> j -> nth_error (update_nth i f l) j = nth_error l j.
Proof.
  induction l as [|x l IH]; intros [|i] [|j] H; cbn; auto; congruence.
Qed.

Lemma update_nth_ext {A} (f g : A -> A) (l : list A) : forall i,
  (forall x, f x = g x) -> update_nth i f l = update_nth i g l.
Proof.
  induction l as [|x l IH]; intros [|i] H; cbn; auto.
  - now rewrite H.
  - f_equal; now apply IH.
Qed.

Lemma update_nth_twice {A} (f g : A -> A) (l : list A) : forall i,
  update_nth i f (update_nth i g l) = update_nth i (fun x => f (g x)) l.
Proof.
  induction l as [|x l IH]; intros [|i]; cbn; auto.
  f_equal; apply IH.
Qed.

Lemma update_nth_swap {A} (f g : A -> A) (l : list A) : forall i j,
  i <> j ->
  update_nth i f (update_nth j g l) = update_nth j g (update_nth i f l).
Proof.
  induction l as [|x l IH]; intros [|i] [|j] H; cbn; auto; try congruence.
  f_equal; apply IH; congruence.
Qed.

(** Writing below two elements neither of which contains the other can be
    done in either order. *)
Lemma set_children_swap (p : path) : forall (q : path) a b forest,
  p <> q -> above p q = false -> above q p = false ->
  set_children p a (set_children q b forest) =
  set_children q b (set_children p a forest).
Proof.
  induction p as [|i p IH]; intros [|j q] a b forest Hne H1 H2;
    try congruence; try discriminate.
  cbn [set_children].
  destruct (Nat.eq_dec i j) as [->|Hij].
  - rewrite !update_nth_twice; apply update_nth_ext; intros [t at_ ch| |];
      trivial.
    f_equal; apply IH.
    + congruence.
    + cbn in H1; now rewrite Nat.eqb_refl in H1.
    + cbn in H2; now rewrite Nat.eqb_refl in H2.
  - now apply update_nth_swap.
Qed.

(** Writing to an element removes what was written below it. *)
Lemma set_children_over (p : path) : forall (q : path) a b forest,
  above p q = true ->
  set_children p a (set_children q b forest) = set_children p a forest.
Proof.
  induction p as [|i p IH]; intros [|j q] a b forest H;
    try discriminate; [reflexivity|].
  cbn in H; apply andb_prop in H as [E H]; apply Nat.eqb_eq in E; subst j.
  cbn [set_children]; rewrite update_nth_twice.
  apply update_nth_ext; intros [t at_ ch| |]; trivial.
  f_equal; now apply IH.
Qed.

Lemma set_children_twice (p : path) : forall a b forest,
  set_children p a (set_children p b forest) = set_children p a forest.
Proof.
  induction p as [|i p IH]; intros a b forest; [reflexivity|].
  cbn [set_children]; rewrite update_nth_twice.
  apply update_nth_ext; intros [t at_ ch| |]; trivial.
  f_equal; apply IH.
Qed.

Lemma lookup_nil (p : path) : lookup p [] = None.
Proof. destruct p as [|[|i] p]; reflexivity. Qed.

(** The element written to keeps its tag and attributes and has the new
    children. *)
Lemma lookup_set_children_same (p : path) : forall new forest,
  lookup p (set_children p new forest) =
  option_map (with_children new) (lookup p forest).
Proof.
  induction p as [|i p IH]; intros new forest; [reflexivity|].
  cbn [lookup set_children].
  rewrite nth_error_update_nth_same.
  destruct (nth_error forest i) as [c|]; [|reflexivity]; cbn [option_map].
  destruct p as [|j p].
  - destruct c; reflexivity.
  - destruct c as [t at_ ch| |]; cbn [children_of];
      [apply IH | now rewrite lookup_nil | now rewrite lookup_nil].
Qed.

(** A write leaves alone every node that is neither the target, nor above
    it, nor below it. *)
Lemma lookup_set_children_apart (p : path) : forall (q : path) new forest,
  p <> q -> above p q = false -> above q p = false ->
  lookup q (set_children p new forest) = lookup q forest.
Proof.
  induction p as [|i p IH]; intros [|j q] new forest Hne H1 H2;
    try congruence; try discriminate; try reflexivity.
  cbn [lookup set_children].
  destruct (Nat.eq_dec i j) as [->|Hij].
  - rewrite nth_error_update_nth_same.
    cbn in H1, H2; rewrite Nat.eqb_refl in H1, H2; cbn in H1, H2.
    destruct (nth_error forest j) as [c|]; [|reflexivity]; cbn [option_map].
    destruct q as [|k q].
    + destruct p; [congruence | discriminate].
    + destruct c as [t at_ ch| |]; cbn [children_of]; trivial.
      apply IH; trivial; congruence.
  - now rewrite nth_error_update_nth_other.
Qed.

(** A write keeps the tag and attributes of every element that is not
    below the target. *)
Lemma lookup_set_children_label (p : path) : forall (q : path) new forest
    tag attrs ch,
  above p q = false ->
  lookup q forest = Some (Elem tag attrs ch) ->
  exists ch', lookup q (set_children p new forest) = Some (Elem tag attrs ch').
Proof.
  induction p as [|i p IH]; intros [|j q] new forest tag attrs ch H Hq;
    try discriminate.
  cbn [lookup set_children] in *.
  destruct (Nat.eq_dec i j) as [->|Hij].
  - rewrite nth_error_update_nth_same.
    cbn in H; rewrite Nat.eqb_refl in H; cbn in H.
    destruct (nth_error forest j) as [c|]; [|discriminate]; cbn [option_map].
    destruct q as [|k q].
    + injection Hq as ->; eauto.
    + destruct c as [t at_ c| |]; cbn [children_of] in *;
        [|destruct k; discriminate|destruct k; discriminate].
      now apply (IH (k :: q) new c tag attrs ch).
  - rewrite nth_error_update_nth_other by assumption; eauto.
Qed.

(** A write keeps the tag of every element that is not below the
    target. *)
Lemma tag_at_set_children (p : path) : forall (q : path) new forest,
  above p q = false ->
  tag_at (set_children p new forest) q = tag_at forest q.
Proof.
  unfold tag_at.
  induction p as [|i p IH]; intros [|j q] new forest H;
    try discriminate; try reflexivity.
  cbn [lookup set_children].
  destruct (Nat.eq_dec i j) as [->|Hij].
  - rewrite nth_error_update_nth_same.
    cbn in H; rewrite Nat.eqb_refl in H; cbn in H.
    destruct (nth_error forest j) as [c|]; [|reflexivity]; cbn [option_map].
    destruct q as [|k q].
    + destruct c; reflexivity.
    + destruct c as [t at_ c| |]; cbn [children_of]; trivial.
      now apply (IH (k :: q)).
  - now rewrite nth_error_update_nth_other.
Qed.

(** *** The elements of a document *)

Lemma In_index_paths (inside : dom -> list path) (l : list dom) :
  forall k p,
  In p (index_paths inside k l) <->
  exists i rest c,
    p = (k + i) :: rest /\ nth_error l i = Some c /\ In rest (inside c).
Proof.
  induction l as [|c l IH]; intros k p; cbn [index_paths].
  - split; [intros [] | intros ([|i] & rest & c & _ & H & _); discriminate].
  - rewrite in_app_iff, in_map_iff, IH; split.
    + intros [(rest & <- & Hr) | (i & rest & c' & -> & Hn & Hr)].
      * exists 0, rest, c; rewrite Nat.add_0_r; auto.
      * exists (S i), rest, c'; rewrite Nat.add_succ_r; auto.
    + intros ([|i] & rest & c' & -> & Hn & Hr); cbn in Hn.
      * injection Hn as <-; left; exists rest; now rewrite Nat.add_0_r.
      * right; exists i, rest, c'; now rewrite Nat.add_succ_r.
Qed.

Lemma lookup_cons (i : nat) (rest : path) (forest : list dom) :
  (exists tag attrs ch, lookup (i :: rest) forest = Some (Elem tag attrs ch))
  <-> exists c, nth_error forest i = Some c /\ leads_to_element c rest.
Proof.
  cbn [lookup]; destruct (nth_error forest i) as [c|]; split.
  - intros (t & a & ch & H); exists c; split; [reflexivity|].
    destruct rest; [injection H as ->|]; cbn; eauto.
  - intros (c' & [= <-] & H); destruct rest; cbn in H;
      [destruct H as (t & a & ch & ->)|]; eauto.
  - intros (t & a & ch & H); discriminate.
  - intros (c' & H & _); discriminate.
Qed.

Lemma paths_of_spec (d : dom) :
  forall rest, In rest (paths_of d) <-> leads_to_element d rest.
Proof.
  induction d as [tag attrs ch IH | s | s] using dom_forall; intros rest.
  - cbn [paths_of In].
    destruct rest as [|i rest].
    + split; [intros _; cbn; eauto | now left].
    + rewrite In_index_paths; unfold leads_to_element at 1.
      cbn [children_of]; rewrite lookup_cons; split.
      * intros [H | (j & r & c & [= -> ->] & Hn & Hr)]; [discriminate|].
        exists c; split; [exact Hn|].
        rewrite Forall_forall in IH; apply IH; [|exact Hr].
        now apply nth_error_In in Hn.
      * intros (c & Hn & Hr); right; exists i, rest, c.
        repeat split; trivial.
        rewrite Forall_forall in IH; apply IH; [|exact Hr].
        now apply nth_error_In in Hn.
  - cbn; destruct rest as [|[|i] [|j rest]]; cbn; split; try tauto;
      intros (t & a & ch & H); discriminate.
  - cbn; destruct rest as [|[|i] [|j rest]]; cbn; split; try tauto;
      intros (t & a & ch & H); discriminate.
Qed.

(** [all_paths] lists exactly the elements of the document. *)
Lemma In_all_paths (forest : list dom) (p : path) :
  In p (all_paths forest) <->
  exists tag attrs ch, lookup p forest = Some (Elem tag attrs ch).
Proof.
  unfold all_paths; rewrite In_index_paths; split.
  - intros (i & rest & c & -> & Hn & Hr); cbn [Nat.add].
    apply lookup_cons; exists c; split; [exact Hn|].
    now apply paths_of_spec.
  - destruct p as [|i rest]; [intros (t & a & ch & H); discriminate|].
    intros H; apply lookup_cons in H as (c & Hn & Hr).
    exists i, rest, c; repeat split; trivial.
    now apply paths_of_spec.
Qed.

Lemma NoDup_map_cons (k : nat) (l : list path) :
  NoDup l -> NoDup (map (cons k) l).
Proof.
  induction 1 as [|p l Hp Hl IH]; cbn; constructor; trivial.
  intros H; apply in_map_iff in H as (q & [= ->] & Hq); contradiction.
Qed.

Lemma index_paths_NoDup (inside : dom -> list path) (l : list dom) :
  Forall (fun c => NoDup (inside c)) l ->
  forall k, NoDup (index_paths inside k l).
Proof.
  induction 1 as [|c l Hc Hl IH]; intros k; cbn [index_paths];
    [constructor|].
  apply NoDup_app; [| apply IH |].
  - now apply NoDup_map_cons.
  - intros p Hp Hq.
    apply in_map_iff in Hp as (r & <- & _).
    apply In_index_paths in Hq as (i & rest & c' & E & _).
    injection E as E _; lia.
Qed.

Lemma paths_of_NoDup (d : dom) : NoDup (paths_of d).
Proof.
  induction d as [tag attrs ch IH | s | s] using dom_forall;
    cbn [paths_of]; try constructor.
  - intros H; apply In_index_paths in H as (i & rest & c & E & _);
      discriminate.
  - now apply index_paths_NoDup.
Qed.

Lemma all_paths_NoDup (forest : list dom) : NoDup (all_paths forest).
Proof.
  apply index_paths_NoDup, Forall_forall; intros c _; apply paths_of_NoDup.
Qed.

(** *** The fetches issued *)

Lemma In_issue (doc : list dom) (t : path) (rq : request) :
  In rq (issue doc t) <->
  target rq = t /\
  attribute_at doc t data_include = Some (includePath rq) /\
  truthy (includePath rq) = true.
Proof.
  unfold issue; destruct (attribute_at doc t data_include) as [v|].
  - destruct (truthy v) eqn:Hv; cbn [negb In]; split.
    + intros [<-|[]]; cbn; auto.
    + intros (Ht & Hq & _); left; destruct rq; cbn in *; congruence.
    + intros [].
    + intros (_ & Hq & Ht); congruence.
  - split; [intros [] | intros (_ & H & _); discriminate].
Qed.

Lemma attribute_at_element (doc : list dom) (p : path) (name v : jsstring) :
  attribute_at doc p name = Some v <->
  exists tag attrs ch,
    lookup p doc = Some (Elem tag attrs ch) /\ assoc name attrs = Some v.
Proof.
  unfold attribute_at, getAttribute; split.
  - destruct (lookup p doc) as [[tag attrs ch| |]|]; try discriminate; eauto.
  - intros (tag & attrs & ch & -> & H); exact H.
Qed.

Lemma In_issued (doc : list dom) (rq : request) :
  In rq (issued doc) <->
  attribute_at doc (target rq) data_include = Some (includePath rq) /\
  truthy (includePath rq) = true.
Proof.
  unfold issued, querySelectorAll_attr; rewrite in_flat_map; split.
  - intros (t & _ & Hrq); apply In_issue in Hrq as (<- & H1 & H2); auto.
  - intros (H1 & H2); exists (target rq); split; [|now apply In_issue].
    apply filter_In; rewrite H1; split; [|reflexivity].
    apply attribute_at_element in H1 as (tag & attrs & ch & Hl & _).
    apply In_all_paths; eauto.
Qed.

Lemma issue_targets (doc : list dom) (l : list path) (t : path) :
  In t (map target (flat_map (issue doc) l)) -> In t l.
Proof.
  intros H; apply in_map_iff in H as (rq & <- & Hrq).
  apply in_flat_map in Hrq as (p & Hp & Hrq).
  apply In_issue in Hrq as (-> & _); exact Hp.
Qed.

(** Different fetches write to different elements. *)
Lemma issued_targets_NoDup (doc : list dom) :
  NoDup (map target (issued doc)).
Proof.
  unfold issued.
  assert (H : NoDup (querySelectorAll_attr data_include doc))
    by apply NoDup_filter, all_paths_NoDup.
  induction (querySelectorAll_attr data_include doc) as [|t l IH];
    [constructor|].
  inversion H as [|? ? Ht Hl]; subst.
  cbn [flat_map]; rewrite map_app.
  unfold issue at 1; destruct (attribute_at doc t data_include) as [v|];
    [destruct (truthy v)|]; cbn [negb map app]; auto.
  constructor; auto.
  intros Hin; apply Ht; now apply (issue_targets doc).
Qed.

Lemma distinct_targets (rqs : list request) (i j : nat) (a b : request) :
  NoDup (map target rqs) ->
  nth_error rqs i = Some a -> nth_error rqs j = Some b ->
  i <> j -> target a <> target b.
Proof.
  intros Hnd Ha Hb Hij Heq; apply Hij.
  assert (Hi : i < List.length (map target rqs)).
  { rewrite length_map; apply nth_error_Some; congruence. }
  apply (proj1 (NoDup_nth_error (map target rqs)) Hnd i j Hi).
  rewrite !nth_error_map, Ha, Hb; cbn; congruence.
Qed.

Lemma scheduled_In (i : nat) (schedule : list nat) :
  scheduled i schedule = true <-> In i schedule.
Proof.
  unfold scheduled; rewrite existsb_exists; split.
  - intros (j & Hj & E); apply Nat.eqb_eq in E; now subst.
  - intros H; exists i; split; [exact H | apply Nat.eqb_refl].
Qed.

(** *** Completions *)

Section Completions.

Variable parse : jsstring -> jsstring -> list dom.
Variable network : nat -> fetch_result.
Variable rqs : list request.

Lemma settle_page (rq : request) (r : fetch_result) (st : state) :
  document (settle parse rq r st) =
    (if detached (target rq) (replaced st) then document st
     else set_children (target rq)
            (parse (tag_at (document st) (target rq)) (outcome_html r))
            (document st)) /\
  replaced (settle parse rq r st) = target rq :: replaced st.
Proof.
  destruct r as [e|[|] [html|e]]; split; reflexivity.
Qed.

Lemma settle_console (rq : request) (r : fetch_result) (st : state) :
  console (settle parse rq r st) = console st ++ logged rq r.
Proof.
  destruct r as [e|[|] [html|e]]; cbn; now rewrite ?app_nil_r.
Qed.

Lemma complete_page (schedule : list nat) : forall st,
  (document (complete parse rqs network schedule st),
   replaced (complete parse rqs network schedule st)) =
  fold_left (step parse network rqs) schedule (document st, replaced st).
Proof.
  induction schedule as [|i rest IH]; intros st; [reflexivity|].
  cbn [complete fold_left]; unfold step at 2; cbn [fst snd].
  destruct (nth_error rqs i) as [rq|]; rewrite IH; [|reflexivity].
  destruct (settle_page rq (network i) st) as [-> ->]; reflexivity.
Qed.

Lemma complete_console (schedule : list nat) : forall st,
  console (complete parse rqs network schedule st) =
  console st ++
  flat_map (fun i => match nth_error rqs i with
                     | Some rq => logged rq (network i)
                     | None => []
                     end) schedule.
Proof.
  induction schedule as [|i rest IH]; intros st;
    [cbn; now rewrite app_nil_r|].
  cbn [complete flat_map].
  destruct (nth_error rqs i) as [rq|]; rewrite IH; [|reflexivity].
  now rewrite settle_console, app_assoc.
Qed.

Lemma complete_logs_failure (i : nat) (rq : request) :
  nth_error rqs i = Some rq ->
  fetch_failed (network i) = true ->
  forall schedule st,
  In i schedule ->
  In (failure_error rq (network i))
     (console (complete parse rqs network schedule st)).
Proof.
  intros Hi Hf schedule st Hin; rewrite complete_console.
  apply in_or_app; right; apply in_flat_map.
  exists i; split; [exact Hin|]; rewrite Hi.
  destruct (network i) as [e|[|] [html|e]]; try discriminate; now left.
Qed.

(** A node apart from the target of every completed fetch is left
    alone. *)
Lemma fold_step_apart (q : path) :
  forall schedule page,
  (forall k rq, In k schedule -> nth_error rqs k = Some rq ->
     apart (target rq) q) ->
  lookup q (fst (fold_left (step parse network rqs) schedule page)) =
  lookup q (fst page).
Proof.
  induction schedule as [|i rest IH]; intros page Hq; [reflexivity|].
  cbn [fold_left]; rewrite IH by (intros k rq Hk; apply Hq; now right).
  unfold step.
  destruct (nth_error rqs i) as [rq|] eqn:E; [|reflexivity]; cbn [fst].
  destruct (detached _ _); [reflexivity|].
  destruct (Hq i rq (or_introl eq_refl) E) as (H1 & H2 & H3).
  now apply lookup_set_children_apart.
Qed.

(** An element that is not below the target of a completed fetch keeps
    its tag and attributes. *)
Lemma fold_step_label (q : path) :
  forall schedule page tag attrs ch,
  (forall k rq, In k schedule -> nth_error rqs k = Some rq ->
     above (target rq) q = false) ->
  lookup q (fst page) = Some (Elem tag attrs ch) ->
  exists ch',
    lookup q (fst (fold_left (step parse network rqs) schedule page)) =
    Some (Elem tag attrs ch').
Proof.
  induction schedule as [|i rest IH];
    intros page tag attrs ch Hq H; [eauto|].
  assert (Hrest : forall k rq, In k rest -> nth_error rqs k = Some rq ->
                    above (target rq) q = false)
    by (intros k rq Hk; apply Hq; now right).
  cbn [fold_left]; unfold step at 2.
  destruct (nth_error rqs i) as [rq|] eqn:E;
    [|now apply (IH page tag attrs ch)].
  destruct (detached _ _).
  - now apply (IH _ tag attrs ch).
  - destruct (lookup_set_children_label (target rq) q
                (parse (tag_at (fst page) (target rq))
                       (outcome_html (network i)))
                (fst page) tag attrs ch)
      as (ch' & H'); trivial.
    + now apply (Hq i rq (or_introl eq_refl)).
    + now apply (IH _ tag attrs ch').
Qed.

Lemma detached_false (p : path) (gone : list path) :
  detached p gone = false <-> forall a, In a gone -> above a p = false.
Proof.
  unfold detached; split.
  - intros H a Ha; destruct (above a p) eqn:E; [|reflexivity].
    rewrite <- H; symmetry; apply existsb_exists; eauto.
  - intros H; destruct (existsb _ gone) eqn:E; [|reflexivity].
    apply existsb_exists in E as (a & Ha & E); now rewrite (H a Ha) in E.
Qed.

(** A placeholder that no completed fetch has around it ends with the
    outcome of its own fetch, whatever completes inside it and in whatever
    order. *)
Lemma fold_step_own (j : nat) (rq : request) :
  NoDup (map target rqs) ->
  nth_error rqs j = Some rq ->
  forall schedule page tag attrs ch,
  (forall k r, In k schedule -> nth_error rqs k = Some r ->
     above (target r) (target rq) = false) ->
  (forall a, In a (snd page) -> above a (target rq) = false) ->
  lookup (target rq) (fst page) = Some (Elem tag attrs ch) ->
  In j schedule \/
  (ch = parse tag (outcome_html (network j)) /\ In (target rq) (snd page)) ->
  lookup (target rq)
         (fst (fold_left (step parse network rqs) schedule page)) =
  Some (Elem tag attrs (parse tag (outcome_html (network j)))).
Proof.
  intros Hnd Hj.
  induction schedule as [|i rest IH];
    intros page tag attrs ch Hfree Hgone Hq Hw.
  { destruct Hw as [[]|[-> _]]; exact Hq. }
  assert (Hrest : forall k r, In k rest -> nth_error rqs k = Some r ->
                    above (target r) (target rq) = false)
    by (intros k r Hk; apply Hfree; now right).
  cbn [fold_left]; unfold step at 2.
  destruct (nth_error rqs i) as [rqi|] eqn:Ei.
  2:{ apply (IH page tag attrs ch); trivial.
      destruct Hw as [[->|Hin]|Hw]; [congruence | now left | now right]. }
  assert (Hi : above (target rqi) (target rq) = false)
    by now apply (Hfree i rqi (or_introl eq_refl)).
  assert (Hgone' : forall a, In a (target rqi :: snd page) ->
                     above a (target rq) = false)
    by (intros a [<-|Ha]; [exact Hi | now apply Hgone]).
  destruct (Nat.eq_dec i j) as [->|Hij].
  - assert (rqi = rq) as -> by congruence.
    rewrite (proj2 (detached_false (target rq) (snd page)) Hgone).
    apply (IH _ tag attrs (parse tag (outcome_html (network j))));
      cbn [fst snd]; trivial.
    + rewrite lookup_set_children_same, Hq; cbn [option_map with_children].
      unfold tag_at; now rewrite Hq.
    + right; split; [reflexivity | now left].
  - pose proof (distinct_targets rqs i j rqi rq Hnd Ei Hj Hij) as Hne.
    destruct (detached (target rqi) (snd page)) eqn:D.
    + apply (IH _ tag attrs ch); cbn [fst snd]; trivial.
      destruct Hw as [[->|Hin]|[-> Hin]];
        [congruence | now left | right; split; [reflexivity | now right]].
    + destruct Hw as [[->|Hin]|[-> Hin]]; [congruence | |].
      * destruct (lookup_set_children_label (target rqi) (target rq)
                    (parse (tag_at (fst page) (target rqi))
                           (outcome_html (network i)))
                    (fst page) tag attrs ch Hi Hq) as (ch' & H').
        apply (IH _ tag attrs ch'); cbn [fst snd]; trivial; now left.
      * assert (Hb : above (target rq) (target rqi) = false).
        { destruct (above (target rq) (target rqi)) eqn:E; [|reflexivity].
          rewrite <- D; symmetry; apply existsb_exists; eauto. }
        apply (IH _ tag attrs (parse tag (outcome_html (network j))));
          cbn [fst snd]; trivial.
        -- rewrite lookup_set_children_apart; trivial.
        -- right; split; [reflexivity | now right].
Qed.

(** *** The order of completion *)

Lemma detached_same (p : path) (a b : list path) :
  (forall x, In x a <-> In x b) -> detached p a = detached p b.
Proof.
  intros H; unfold detached; apply eq_true_iff_eq.
  rewrite !existsb_exists; split; intros (x & Hx & E); exists x; split;
    trivial; now apply H.
Qed.

Lemma same_page_refl a : same_page a a.
Proof. split; [reflexivity | tauto]. Qed.

Lemma same_page_trans a b c : same_page a b -> same_page b c -> same_page a c.
Proof.
  intros [H1 H2] [H3 H4]; split; [congruence|].
  intros p; rewrite H2; apply H4.
Qed.

Lemma step_same a b (i : nat) :
  same_page a b ->
  same_page (step parse network rqs a i) (step parse network rqs b i).
Proof.
  intros [Hd Hr]; unfold step.
  destruct (nth_error rqs i) as [rq|]; [|now split].
  split; cbn [fst snd].
  - now rewrite (detached_same _ _ _ Hr), Hd.
  - intros p; cbn; now rewrite Hr.
Qed.

Lemma fold_step_same (schedule : list nat) : forall a b,
  same_page a b ->
  same_page (fold_left (step parse network rqs) schedule a)
            (fold_left (step parse network rqs) schedule b).
Proof.
  induction schedule as [|i rest IH]; intros a b H; [exact H|].
  cbn [fold_left]; now apply IH, step_same.
Qed.

Lemma detached_cons (p a : path) (gone : list path) :
  detached p (a :: gone) = above a p || detached p gone.
Proof. reflexivity. Qed.

Lemma detached_below (p q : path) (gone : list path) :
  above p q = true -> detached p gone = true -> detached q gone = true.
Proof.
  unfold detached; intros Hpq H.
  apply existsb_exists in H as (a & Ha & E).
  apply existsb_exists; exists a; split; [exact Ha|].
  now apply (above_trans a p q).
Qed.

(** Two completions in either order. *)
Lemma step_swap (page : list dom * list path) (i j : nat) :
  NoDup (map target rqs) ->
  same_page
    (step parse network rqs (step parse network rqs page i) j)
    (step parse network rqs (step parse network rqs page j) i).
Proof.
  intros Hnd; destruct (Nat.eq_dec i j) as [->|Hij]; [apply same_page_refl|].
  unfold step.
  destruct (nth_error rqs i) as [a|] eqn:Ei;
    destruct (nth_error rqs j) as [b|] eqn:Ej; try apply same_page_refl.
  pose proof (distinct_targets rqs i j a b Hnd Ei Ej Hij) as Hne.
  destruct page as [doc gone]; cbn [fst snd].
  split; cbn [fst snd]; [|intros p; cbn; tauto].
  rewrite !detached_cons.
  destruct (above (target a) (target b)) eqn:Hab;
    [|destruct (above (target b) (target a)) eqn:Hba].
  - pose proof (above_asym _ _ Hab) as Hba; rewrite Hba; cbn [orb].
    destruct (detached (target a) gone) eqn:Da.
    + now rewrite (detached_below _ _ _ Hab Da).
    + destruct (detached (target b) gone); [reflexivity|].
      rewrite (tag_at_set_children _ _ _ _ Hba).
      now rewrite set_children_over.
  - cbn [orb].
    destruct (detached (target b) gone) eqn:Db.
    + now rewrite (detached_below _ _ _ Hba Db).
    + destruct (detached (target a) gone); [reflexivity|].
      rewrite (tag_at_set_children _ _ _ _ Hab).
      now rewrite set_children_over.
  - cbn [orb].
    destruct (detached (target a) gone), (detached (target b) gone);
      try reflexivity.
    rewrite (tag_at_set_children _ _ _ _ Hab),
            (tag_at_set_children _ _ _ _ Hba).
    apply set_children_swap; auto.
Qed.

Lemma fold_step_permutation (l l' : list nat) :
  NoDup (map target rqs) ->
  Permutation l l' ->
  forall page,
  same_page (fold_left (step parse network rqs) l page)
            (fold_left (step parse network rqs) l' page).
Proof.
  intros Hnd Hp; induction Hp as [|x l l' _ IH|x y l|l l' l'' _ IH1 _ IH2];
    intros page; cbn [fold_left].
  - apply same_page_refl.
  - apply IH.
  - apply fold_step_same, step_swap, Hnd.
  - eapply same_page_trans; [apply IH1 | apply IH2].
Qed.

End Completions.

(** The document the handler and the completions of its fetches leave. *)
Lemma handler_page (parse : jsstring -> jsstring -> list dom)
    (network : nat -> fetch_result) (schedule : list nat)
    (doc : list dom) (log : list error) :
  document (onDOMContentLoaded parse network schedule doc log) =
  fst (fold_left (step parse network (issued doc)) schedule (doc, [])).
Proof.
  unfold onDOMContentLoaded.
  pose proof (complete_page parse network (issued doc) schedule
                {| document := doc; replaced := []; console := log |}) as Hc.
  now apply (f_equal fst) in Hc.
Qed.

(** Two different fetches have different placeholders. *)
Lemma other_target (doc : list dom) (j k : nat) (a b : request) :
  nth_error (issued doc) j = Some a ->
  nth_error (issued doc) k = Some b ->
  j <> k -> target b <> target a.
Proof.
  intros Ha Hb Hjk.
  apply (distinct_targets (issued doc) k j b a (issued_targets_NoDup doc));
    auto.
Qed.

(** *** Failed fetches and placeholders without a path *)

(** C10 (as worded) fails when a placeholder with an empty path contains
    a fetching one: its content changes when the inner fetch completes. *)
Lemma C10_counterexample :
  ~ unfetched_left_alone IncludeScenario.parse IncludeScenario.network [0]
      IncludeScenario.wrapped.
Proof.
  intros H.
  destruct (H [0] (lit "div") [(lit "data-include", lit EmptyString)]
              [IncludeScenario.header_placeholder]) as (_ & Hkept).
  - reflexivity.
  - right; reflexivity.
  - vm_compute in Hkept; discriminate Hkept.
Qed.

(** C10 (amended). An element whose [data-include] attribute is absent or
    empty gets no fetch, while every element with a non-empty
    [data-include] gets its fetch; and the element is left exactly as it
    was as long as no fetch has completed for a placeholder inside it or
    around it. *)
Theorem C10_no_fetch_without_path (parse : jsstring -> jsstring -> list dom)
    (network : nat -> fetch_result) (schedule : list nat)
    (doc : list dom) (log : list error)
    (q : path) (tag : jsstring) (attrs : list (jsstring * jsstring))
    (ch : list dom) :
  lookup q doc = Some (Elem tag attrs ch) ->
  assoc data_include attrs = None \/
  assoc data_include attrs = Some (lit EmptyString) ->
  (forall rq, In rq (issued doc) -> target rq <> q) /\
  ((forall k rq, In k schedule -> nth_error (issued doc) k = Some rq ->
      above (target rq) q = false /\ above q (target rq) = false) ->
   lookup q (document (onDOMContentLoaded parse network schedule doc log)) =
     Some (Elem tag attrs ch)) /\
  (forall p t a c v,
     lookup p doc = Some (Elem t a c) ->
     assoc data_include a = Some v -> v <> lit EmptyString ->
     In {| target := p; includePath := v |} (issued doc)).
Proof.
  intros Hq Hattr.
  assert (Hno : forall rq, In rq (issued doc) -> target rq <> q).
  { intros rq Hrq Heq.
    apply In_issued in Hrq as (Ha & Ht).
    apply attribute_at_element in Ha as (t & a & c & Hl & Ha).
    rewrite Heq, Hq in Hl; injection Hl as <- <- <-.
    destruct Hattr as [Hn|Hn]; rewrite Hn in Ha; [discriminate|].
    injection Ha as Ha; rewrite <- Ha in Ht; discriminate. }
  split; [exact Hno|]; split.
  - intros Hfree.
    rewrite handler_page, fold_step_apart; [exact Hq|].
    intros k rq Hk Hrq; destruct (Hfree k rq Hk Hrq); repeat split; auto.
    apply Hno; now apply nth_error_In in Hrq.
  - intros p t a c v Hp Ha Hv; apply In_issued; cbn [target includePath].
    split.
    + apply attribute_at_element; eauto.
    + destruct v; [contradiction | reflexivity].
Qed.

Lemma C10_witness :
  lookup [0; 1]
    (document (onDOMContentLoaded IncludeScenario.parse
                 IncludeScenario.network [1; 0] IncludeScenario.loaded [])) =
  Some IncludeScenario.empty_placeholder.
Proof.
  destruct (C10_no_fetch_without_path IncludeScenario.parse
              IncludeScenario.network [1; 0] IncludeScenario.loaded []
              [0; 1] (lit "div") [(lit "data-include", lit EmptyString)]
              [TextNode (lit "kept")]) as (_ & Hkept & _).
  - reflexivity.
  - right; reflexivity.
  - apply Hkept; intros k rq [<-|[<-|[]]] Hrq; vm_compute in Hrq;
      injection Hrq as <-; split; reflexivity.
Defined.

(** C6 (as worded) fails when a fetching placeholder is inside the one
    whose fetch failed: the marker replaces it, and the text its own fetch
    delivers never reaches the page. *)
Lemma C6_counterexample :
  ~ failures_are_local IncludeScenario.parse IncludeScenario.nested_network
      [0; 1] IncludeScenario.nested.
Proof.
  intros H.
  destruct (H 0 {| target := [0];
                   includePath := IncludeScenario.footer_path |})
    as (_ & _ & Hothers).
  - reflexivity.
  - left; reflexivity.
  - reflexivity.
  - specialize (Hothers 1 {| target := [0; 0];
                             includePath := IncludeScenario.header_path |}).
    assert (E : 1 <> 0) by discriminate.
    destruct (Hothers E eq_refl) as (tag & attrs & ch & _ & Hfinal).
    vm_compute in Hfinal; discriminate Hfinal.
Qed.

(** C6 (amended). When the fetch of a placeholder fails (network error or
    a response without success status) the error is logged, and the
    placeholder's content becomes the fallback marker unless a fetch has
    completed for a placeholder around it. The failure reaches no
    placeholder outside the failed one: every other placeholder that no
    completed fetch has around it holds the outcome of its own fetch once
    that has settled (fetched content or marker), in whatever order the
    fetches complete, and its original content while its fetch is pending
    and no fetch has completed inside it. *)
Theorem C6_failure_is_local (parse : jsstring -> jsstring -> list dom)
    (network : nat -> fetch_result) (schedule : list nat)
    (doc : list dom) (log : list error) (i : nat) (rq : request) :
  nth_error (issued doc) i = Some rq ->
  In i schedule ->
  fetch_failed (network i) = true ->
  In (failure_error rq (network i))
     (console (onDOMContentLoaded parse network schedule doc log)) /\
  (exists tag attrs ch,
     lookup (target rq) doc = Some (Elem tag attrs ch) /\
     assoc data_include attrs = Some (includePath rq) /\
     ((forall k r, In k schedule -> nth_error (issued doc) k = Some r ->
         above (target r) (target rq) = false) ->
      lookup (target rq)
             (document (onDOMContentLoaded parse network schedule doc log)) =
        Some (Elem tag attrs (parse tag fallback_marker)))) /\
  (forall j rqj,
     j <> i ->
     nth_error (issued doc) j = Some rqj ->
     (forall k r, In k schedule -> nth_error (issued doc) k = Some r ->
        above (target r) (target rqj) = false) ->
     exists tag attrs ch,
       lookup (target rqj) doc = Some (Elem tag attrs ch) /\
       (In j schedule ->
        lookup (target rqj)
               (document (onDOMContentLoaded parse network schedule doc log))
        = Some (Elem tag attrs (parse tag (outcome_html (network j))))) /\
       (~ In j schedule ->
        (forall k r, In k schedule -> nth_error (issued doc) k = Some r ->
           above (target rqj) (target r) = false) ->
        lookup (target rqj)
               (document (onDOMContentLoaded parse network schedule doc log))
        = Some (Elem tag attrs ch))).
Proof.
  intros Hi Hin Hf.
  pose proof (issued_targets_NoDup doc) as Hnt.
  assert (Helem : forall j rqj, nth_error (issued doc) j = Some rqj ->
            exists tag attrs ch,
              lookup (target rqj) doc = Some (Elem tag attrs ch) /\
              assoc data_include attrs = Some (includePath rqj)).
  { intros j rqj Hj; apply nth_error_In, In_issued in Hj as (Ha & _).
    now apply attribute_at_element in Ha. }
  assert (Hown : forall j rqj tag attrs ch,
            nth_error (issued doc) j = Some rqj ->
            lookup (target rqj) doc = Some (Elem tag attrs ch) ->
            In j schedule ->
            (forall k r, In k schedule -> nth_error (issued doc) k = Some r ->
               above (target r) (target rqj) = false) ->
            lookup (target rqj)
              (document (onDOMContentLoaded parse network schedule doc log))
            = Some (Elem tag attrs (parse tag (outcome_html (network j))))).
  { intros j rqj tag attrs ch Hj Hl Hs Hfree; rewrite handler_page.
    apply (fold_step_own parse network (issued doc) j rqj Hnt Hj schedule
             (doc, []) tag attrs ch Hfree); [intros a [] | exact Hl |].
    now left. }
  split; [|split].
  - unfold onDOMContentLoaded; now apply complete_logs_failure.
  - destruct (Helem i rq Hi) as (tag & attrs & ch & Hl & Ha).
    exists tag, attrs, ch; repeat split; trivial.
    intros Hfree; rewrite (Hown i rq tag attrs ch Hi Hl Hin Hfree).
    destruct (network i) as [e|[|] [html|e]]; try discriminate; reflexivity.
  - intros j rqj _ Hj Hfree.
    destruct (Helem j rqj Hj) as (tag & attrs & ch & Hl & _).
    exists tag, attrs, ch; repeat split; trivial.
    + intros Hs; now apply (Hown j rqj tag attrs ch).
    + intros Hs Hin'; rewrite handler_page, fold_step_apart; [exact Hl|].
      intros k r Hk Hr; repeat split; eauto.
      apply (other_target doc j k rqj r Hj Hr); congruence.
Qed.

Lemma C6_witness :
  In (Error (lit "Failed to load include: ../../partials/footer.html"))
     (console (onDOMContentLoaded IncludeScenario.parse
                 IncludeScenario.network [1; 0] IncludeScenario.loaded [])) /\
  lookup [0; 2]
    (document (onDOMContentLoaded IncludeScenario.parse
                 IncludeScenario.network [1; 0] IncludeScenario.loaded [])) =
    Some (with_children [IncludeScenario.marker_comment]
            IncludeScenario.footer_placeholder) /\
  lookup [0; 0]
    (document (onDOMContentLoaded IncludeScenario.parse
                 IncludeScenario.network [1; 0] IncludeScenario.loaded [])) =
    Some (with_children [IncludeScenario.header_link]
            IncludeScenario.header_placeholder).
Proof.
  assert (Hfree : forall q, q = [0; 2] \/ q = [0; 0] ->
            forall k r, In k [1; 0] ->
            nth_error (issued IncludeScenario.loaded) k = Some r ->
            above (target r) q = false).
  { intros q Hq k r [<-|[<-|[]]] Hr; vm_compute in Hr; injection Hr as <-;
      destruct Hq as [->| ->]; reflexivity. }
  destruct (C6_failure_is_local IncludeScenario.parse IncludeScenario.network
              [1; 0] IncludeScenario.loaded [] 1
              {| target := [0; 2];
                 includePath := IncludeScenario.footer_path |})
    as (Hlog & (tag & attrs & ch & He & _ & Hm) & Hothers).
  - reflexivity.
  - left; reflexivity.
  - reflexivity.
  - split; [exact Hlog|]; split.
    + vm_compute in He; injection He as <- <- <-.
      apply Hm, Hfree; now left.
    + destruct (Hothers 0 {| target := [0; 0];
                             includePath := IncludeScenario.header_path |})
        as (tag' & attrs' & ch' & He' & Hdone & _);
        [discriminate | reflexivity | apply Hfree; now right |].
      vm_compute in He'; injection He' as <- <- <-.
      apply Hdone; right; left; reflexivity.
Defined.

(** C2: the handler on the nested scenario page. The header placeholder
    receives exactly the nodes parsed from the fetched text, whatever the
    parser: its link still points at [index.html]; and the root-relative
    link of the page keeps its [href]: nothing is prefixed with the base
    path [../..]. *)
Theorem C2_root_references_left_unprefixed :
  (forall parse : jsstring -> jsstring -> list dom,
     option_map children_of
       (lookup [0; 0]
          (document (onDOMContentLoaded parse IncludeScenario.network [0; 1]
                       IncludeScenario.loaded []))) =
     Some (parse (lit "div") IncludeScenario.header_html)) /\
  lookup [0; 0]
    (document (onDOMContentLoaded IncludeScenario.parse
                 IncludeScenario.network [0; 1] IncludeScenario.loaded [])) =
    Some (Elem (lit "div")
            [(lit "data-include", IncludeScenario.header_path);
             (lit "data-root-path", lit "../..")]
            [Elem (lit "a")
               [(lit "href", lit "index.html");
                (lit "data-root-href", lit "index.html")]
               [TextNode (lit "home")]]) /\
  attribute_at
    (document (onDOMContentLoaded IncludeScenario.parse
                 IncludeScenario.network [0; 1] IncludeScenario.loaded []))
    [0; 0; 0] (lit "href") = Some (lit "index.html") /\
  attribute_at
    (document (onDOMContentLoaded IncludeScenario.parse
                 IncludeScenario.network [0; 1] IncludeScenario.loaded []))
    [0; 3] (lit "href") = Some (lit "index.html") /\
  lit "index.html" <> lit "../../index.html".
Proof.
  split; [intros parse; reflexivity|].
  repeat split; try (vm_compute; reflexivity).
  intros H; vm_compute in H; discriminate H.
Qed.

(** * Further properties of the recipe filter *)
Module FilterFacts.
Import JS RecipeFilter Markup.

(** ** Tag attributes *)

Lemma split_pieces_free (sep : N) (s : jsstring) :
  forall t, In t (split sep s) -> ~ In sep t.
Proof.
  induction s as [|c s IH]; simpl; intros t Ht.
  - destruct Ht as [<-|[]]; intros [].
  - destruct (N.eqb_spec c sep) as [->|Hc].
    + destruct Ht as [<-|Ht]; [intros []|now apply IH].
    + destruct (split sep s) as [|p ps] eqn:E.
      * destruct Ht as [<-|[]]; intros [H|[]]; congruence.
      * destruct Ht as [<-|Ht].
        -- intros [H|H]; [congruence|]. apply (IH p); [now left|exact H].
        -- apply IH; now right.
Qed.

Lemma trimStart_blank (t : jsstring) :
  forallb isWhiteSpace t = true -> trimStart t = [].
Proof.
  induction t as [|c t IH]; simpl; [reflexivity|].
  intros H; apply andb_prop in H as [Hc Ht]; rewrite Hc; auto.
Qed.

Lemma kept_has_ink (t : jsstring) :
  kept t = true -> exists c, In c t /\ isWhiteSpace c = false.
Proof.
  unfold kept; intros H.
  destruct (forallb isWhiteSpace t) eqn:E.
  - unfold trim in H; rewrite (trimStart_blank t E) in H; discriminate.
  - assert (Hex : existsb (fun c => negb (isWhiteSpace c)) t = true).
    { clear H; induction t as [|c t IH]; simpl in *; [discriminate|].
      destruct (isWhiteSpace c); simpl in *; auto. }
    apply existsb_exists in Hex as (c & Hc & Hn).
    exists c; split; [exact Hc|]; now destruct (isWhiteSpace c).
Qed.

Lemma parse_tags_tokens (attr : option jsstring) (t : jsstring) :
  In t (parse_tags attr) ->
  ~ In comma t /\ exists c, In c t /\ isWhiteSpace c = false.
Proof.
  unfold parse_tags; intros H; apply filter_In in H as [Hs Hk]; split.
  - exact (split_pieces_free comma _ t Hs).
  - now apply kept_has_ink.
Qed.

Lemma In_snapshots (cs : list card) : forall n r,
  In r (snapshots n cs) ->
  exists c, In c cs /\
    ingredients r = parse_tags (data_ingredients c) /\
    dietary r = parse_tags (data_dietary c) /\
    category r = or_empty (data_category c) /\
    outerHTML (element r) = outerHTML (card_node c) /\
    n <= node_id (element r) < n + List.length cs.
Proof.
  induction cs as [|c cs IH]; intros n r H; [destruct H|].
  destruct H as [<-|H].
  - exists c; cbn; repeat split; auto; lia.
  - destruct (IH _ _ H) as (c' & Hc' & H1 & H2 & H3 & H4 & H5).
    exists c'; cbn [List.length]; repeat split; auto; try lia.
    now right.
Qed.

(** X1. Every ingredient and dietary tag stored at initialization is free
    of commas and has at least one code unit that is not white space. *)
Theorem X1_stored_tags_are_tokens (s : page) (r : recipe) (t : jsstring) :
  In r (allRecipes (state_of (setup s))) ->
  In t (dietary r) \/ In t (ingredients r) ->
  ~ In comma t /\ exists c, In c t /\ isWhiteSpace c = false.
Proof.
  rewrite setup_allRecipes; intros Hr Ht.
  apply In_snapshots in Hr as (c & _ & Hi & Hd & _).
  rewrite Hi, Hd in Ht.
  destruct Ht as [Ht|Ht]; exact (parse_tags_tokens _ t Ht).
Qed.

Lemma X1_witness :
  ~ In comma (lit " halal") /\
  exists c, In c (lit " halal") /\ isWhiteSpace c = false.
Proof.
  apply (X1_stored_tags_are_tokens
           (Scenario.served [Scenario.cardSpaced])
           {| element := {| node_id := 100;
                            outerHTML := lit "<article>C</article>" |};
              category := lit "side-dish";
              ingredients := [];
              dietary := [lit "vegan"; lit " halal"] |}
           (lit " halal")).
  - vm_compute; left; reflexivity.
  - left; right; left; reflexivity.
Defined.

Lemma split_single (sep : N) (t : jsstring) :
  ~ In sep t -> split sep t = [t].
Proof.
  induction t as [|c t IH]; simpl; intros H; [reflexivity|].
  destruct (N.eqb_spec c sep) as [->|Hc]; [tauto|].
  rewrite IH by tauto; reflexivity.
Qed.

Lemma split_cons (sep : N) (t s : jsstring) :
  ~ In sep t -> split sep (t ++ sep :: s) = t :: split sep s.
Proof.
  induction t as [|c t IH]; simpl; intros H.
  - now rewrite N.eqb_refl.
  - destruct (N.eqb_spec c sep) as [->|Hc]; [tauto|].
    rewrite IH by tauto; reflexivity.
Qed.

Lemma split_join (tokens : list jsstring) :
  tokens <> [] ->
  Forall (fun t => ~ In comma t) tokens ->
  split comma (join_commas tokens) = tokens.
Proof.
  induction tokens as [|t ts IH]; intros Hne Hall; [congruence|].
  inversion Hall as [|? ? Ht Hts]; subst.
  destruct ts as [|u us]; [now apply split_single|].
  change (join_commas (t :: u :: us))
    with (t ++ comma :: join_commas (u :: us)).
  rewrite split_cons by assumption.
  rewrite IH; [reflexivity | discriminate | assumption].
Qed.

Lemma or_empty_Some (s : jsstring) : or_empty (Some s) = s.
Proof. destruct s; reflexivity. Qed.

(** X2. A tag attribute written as tokens joined by commas, each token
    free of commas and not blank, is read back by [collectRecipeData] as
    exactly those tokens, in order. *)
Theorem X2_parse_tags_reads_joined_tokens (tokens : list jsstring) :
  Forall (fun t => ~ In comma t) tokens ->
  Forall (fun t => kept t = true) tokens ->
  parse_tags (Some (join_commas tokens)) = tokens.
Proof.
  intros Hfree Hkept; unfold parse_tags; rewrite or_empty_Some.
  destruct tokens as [|t ts]; [reflexivity|].
  rewrite split_join by (trivial; discriminate).
  apply forallb_filter_id, forallb_forall; intros x Hx.
  rewrite Forall_forall in Hkept; now apply Hkept.
Qed.

Lemma X2_witness :
  parse_tags (Some (join_commas [lit "vegan"; lit "gluten-free";
                                 lit "nut-free"])) =
  [lit "vegan"; lit "gluten-free"; lit "nut-free"].
Proof.
  apply (X2_parse_tags_reads_joined_tokens
           [lit "vegan"; lit "gluten-free"; lit "nut-free"]).
  - repeat constructor; vm_compute; intuition discriminate.
  - repeat constructor.
Defined.

(** ** Initialization *)

Lemma setup_state (s : page) :
  document_elements (state_of (setup s)) = document_elements s /\
  next_node (state_of (setup s)) =
    next_node s + List.length (recipeCards s) /\
  activeFilters (state_of (setup s)) = activeFilters s /\
  anchors_of (state_of (setup s)) = anchors_of s.
Proof.
  rewrite setup_eq, collectRecipeData_eq, updateActiveFiltersCount_eq.
  destruct s as [rs f els nn form sec grid cnt btn lbl orig hd cl kl eff].
  destruct lbl; unfold anchors_of; cbn; auto.
Qed.

Lemma snapshots_length (cs : list card) : forall n,
  List.length (snapshots n cs) = List.length cs.
Proof. induction cs; intros n; simpl; auto. Qed.

(** X3. Initialization stores one record per recipe card of the page; the
    stored elements are new nodes, distinct from one another and, when the
    node counter is above every node of the page, from every card of the
    page; the cards themselves are left as they were. *)
Theorem X3_setup_takes_fresh_snapshots (s : page) :
  (forall c, In c (document_elements s) ->
             node_id (card_node c) < next_node s) ->
  List.length (allRecipes (state_of (setup s))) =
    List.length (recipeCards s) /\
  NoDup (map node_id (map element (allRecipes (state_of (setup s))))) /\
  document_elements (state_of (setup s)) = document_elements s /\
  (forall r c, In r (allRecipes (state_of (setup s))) ->
               In c (document_elements (state_of (setup s))) ->
               node_id (element r) <> node_id (card_node c)).
Proof.
  intros Hlive.
  destruct (setup_state s) as (Hdoc & _).
  rewrite Hdoc, setup_allRecipes, snapshots_length, snapshots_nodes.
  repeat split; trivial.
  - apply seq_NoDup.
  - intros r c Hr Hc Heq.
    apply In_snapshots in Hr as (_ & _ & _ & _ & _ & _ & Hge & _).
    specialize (Hlive c Hc); lia.
Qed.

Lemma X3_witness :
  List.length (allRecipes (state_of (setup three_cards))) = 3 /\
  NoDup (map node_id (map element (allRecipes (state_of (setup three_cards))))).
Proof.
  destruct (X3_setup_takes_fresh_snapshots three_cards) as (Hlen & Hnd & _).
  - intros c Hc; vm_compute in Hc.
    destruct Hc as [<-|[<-|[<-|[]]]]; vm_compute; lia.
  - split; [exact Hlen | exact Hnd].
Defined.

(** ** What the handlers leave alone *)

Lemma frame_refl (s : page) : frame s s.
Proof. unfold frame; auto 10. Qed.

Lemma frame_trans (a b c : page) : frame a b -> frame b c -> frame a c.
Proof.
  unfold frame; intros (A1 & A2 & A3 & A4) (B1 & B2 & B3 & B4).
  repeat split; congruence.
Qed.

Lemma frame_set_activeFilters f (s : page) : frame s (set_activeFilters f s).
Proof. destruct s; unfold frame, anchors_of; cbn; auto 10. Qed.

Lemma frame_updateActiveFiltersCount (s : page) :
  frame s (state_of (updateActiveFiltersCount s)).
Proof.
  rewrite updateActiveFiltersCount_eq.
  destruct s as [rs f els nn form sec grid cnt btn lbl orig hd cl kl eff].
  destruct lbl; unfold frame, anchors_of; cbn; auto 10.
Qed.

Lemma frame_applyFilters (s : page) : frame s (state_of (applyFilters s)).
Proof.
  rewrite applyFilters_eq, displayFilteredResults_eq, hideFilteredResults_eq.
  destruct s as [rs f els nn form sec grid cnt btn lbl orig hd cl kl eff].
  cbn [activeFilters filteredResultsSection filteredResultsGrid
       resultCountSpan].
  destruct (hasActiveFilters f), sec, grid, cnt;
    unfold frame, anchors_of, state_of;
    cbn [snd allRecipes document_elements next_node changeListener
         clickListener filterForm filteredResultsSection filteredResultsGrid
         resultCountSpan resetButton activeFiltersCountSpan filterHeading
         originalRecipeSections is_some
         set_effects set_filteredResultsSection set_resultCountSpan
         set_filteredResultsGrid set_originalRecipeSections];
    rewrite ?length_map; auto 10.
Qed.

Lemma frame_refresh (s : page) :
  frame s (state_of ((applyFilters ;;; updateActiveFiltersCount) s)).
Proof.
  unfold bind.
  pose proof (frame_applyFilters s) as Ha.
  destruct (applyFilters s) as [[[]|e] s1]; unfold state_of in *;
    cbn [snd] in *; [|exact Ha].
  apply (frame_trans _ _ _ Ha), frame_updateActiveFiltersCount.
Qed.

Lemma handleFilterChange_frame (t : input) (s : page) :
  frame s (state_of (handleFilterChange t s)).
Proof.
  unfold handleFilterChange.
  destruct (str_eqb (type t) (lit "checkbox")); cbn [negb];
    [|apply frame_refl].
  assert (H : forall op,
    frame s (state_of
      ((filters_update (name t) op ;;;
        applyFilters ;;; updateActiveFiltersCount) s))).
  { intros op; unfold bind at 1, filters_update, bind at 1, get at 1.
    destruct (str_eqb (name t) (lit "category"));
      [|destruct (str_eqb (name t) (lit "dietary"))];
      unfold modify, throw; try apply frame_refl;
      (eapply frame_trans; [apply frame_set_activeFilters|apply frame_refresh]). }
  destruct (checked t); apply H.
Qed.

Lemma resetFilters_frame (s : page) : frame s (state_of (resetFilters s)).
Proof.
  rewrite resetFilters_eq.
  destruct s as [rs f els nn form sec grid cnt btn lbl orig hd cl kl eff].
  cbn [filterForm filteredResultsSection activeFiltersCountSpan
       filterHeading].
  destruct form, sec, lbl, hd; unfold frame, anchors_of, state_of;
    cbn -[lit uncheck]; rewrite ?length_map; auto 10.
Qed.

Lemma dispatch_frame (e : event) (s : page) :
  frame s (state_of (dispatch e s)).
Proof.
  destruct e as [t|]; unfold dispatch, dispatch_change, dispatch_click,
    bind, get.
  - destruct (changeListener s);
      [apply handleFilterChange_frame | apply frame_refl].
  - destruct (clickListener s);
      [apply resetFilters_frame | apply frame_refl].
Qed.

Lemma run_frame (es : list event) : forall s, frame s (run es s).
Proof.
  induction es as [|e es IH]; intros s; [apply frame_refl|].
  cbn [run]; eapply frame_trans; [apply dispatch_frame | apply IH].
Qed.

(** X4. Whatever events the page handles (also ones whose handler
    throws), the stored recipes, the set of elements the script variables
    hold and the registered listeners stay as they were: the recipes are
    those captured at initialization. *)
Theorem X4_events_keep_the_frame (es : list event) (s : page) :
  frame s (run es s) /\
  forall s0, s = state_of (setup s0) ->
    allRecipes (run es s) = snapshots (next_node s0) (recipeCards s0).
Proof.
  split; [apply run_frame|].
  intros s0 ->; destruct (run_frame es (state_of (setup s0))) as (-> & _).
  apply setup_allRecipes.
Qed.

Lemma X4_witness :
  allRecipes
    (run [Change (checkbox (lit "dietary") (lit "vegan") true); Click;
          Change (checkbox (lit "color") (lit "red") true)]
         (state_of (setup three_cards))) =
  snapshots (next_node three_cards) (recipeCards three_cards).
Proof.
  destruct (X4_events_keep_the_frame
              [Change (checkbox (lit "dietary") (lit "vegan") true); Click;
               Change (checkbox (lit "color") (lit "red") true)]
              (state_of (setup three_cards))) as (_ & H).
  apply (H three_cards); reflexivity.
Defined.

(** ** The filter sets *)

Lemma refresh_activeFilters (s : page) :
  activeFilters (state_of ((applyFilters ;;; updateActiveFiltersCount) s)) =
  activeFilters s.
Proof.
  unfold bind; rewrite applyFilters_eq, displayFilteredResults_eq,
    hideFilteredResults_eq.
  destruct s as [rs f els nn form sec grid cnt btn lbl orig hd cl kl eff].
  cbn [filteredResultsSection filteredResultsGrid resultCountSpan
       activeFilters].
  destruct (hasActiveFilters f), sec, grid, cnt; cbv zeta;
    try reflexivity; rewrite updateActiveFiltersCount_eq;
    cbn [activeFiltersCountSpan set_originalRecipeSections
         set_filteredResultsSection set_effects set_resultCountSpan
         set_filteredResultsGrid];
    destruct lbl; reflexivity.
Qed.

(** The filter state after a change event, whether or not the handler
    completes. *)
Lemma handleFilterChange_filters (t : input) (s : page) :
  activeFilters (state_of (handleFilterChange t s)) =
  filters_after t (activeFilters s).
Proof.
  unfold handleFilterChange, filters_after, toggled.
  destruct (str_eqb (type t) (lit "checkbox")); cbn [negb]; [|reflexivity].
  unfold bind at 1.
  destruct (checked t); unfold filters_update, bind at 1, get at 1;
    (destruct (str_eqb (name t) (lit "category")); cbn [orb];
     [|destruct (str_eqb (name t) (lit "dietary"))]);
    unfold modify, throw; try reflexivity;
    rewrite refresh_activeFilters; destruct s; reflexivity.
Qed.

Lemma resetFilters_filters (s : page) :
  activeFilters (state_of (resetFilters s)) =
  {| activeCategory := []; activeDietary := [] |}.
Proof.
  rewrite resetFilters_eq.
  destruct s as [rs f els nn form sec grid cnt btn lbl orig hd cl kl eff].
  cbn [filterForm filteredResultsSection activeFiltersCountSpan
       filterHeading].
  destruct form, sec, lbl, hd; reflexivity.
Qed.

Lemma add_NoDup (st : StrSet.t) (x : jsstring) :
  NoDup st -> NoDup (StrSet.add st x).
Proof.
  intros H; unfold StrSet.add.
  destruct (StrSet.has st x) eqn:E; [exact H|].
  apply NoDup_app; [exact H | repeat constructor; intros [] |].
  intros y Hy [<-|[]].
  apply has_In in Hy; congruence.
Qed.

Lemma delete_NoDup (st : StrSet.t) (x : jsstring) :
  NoDup st -> NoDup (StrSet.delete st x).
Proof. intros H; unfold StrSet.delete; now apply NoDup_filter. Qed.

Lemma toggled_distinct ft v on f :
  distinct_filters f -> distinct_filters (toggled ft v on f).
Proof.
  unfold distinct_filters, toggled; intros [Hc Hd].
  destruct (str_eqb ft (lit "category")), on;
    cbn [activeCategory activeDietary]; split;
    auto using add_NoDup, delete_NoDup.
Qed.

Lemma dispatch_distinct (e : event) (s : page) :
  distinct_filters (activeFilters s) ->
  distinct_filters (activeFilters (state_of (dispatch e s))).
Proof.
  intros H; destruct e as [t|]; unfold dispatch, dispatch_change,
    dispatch_click, bind, get.
  - destruct (changeListener s); [|exact H].
    rewrite handleFilterChange_filters; unfold filters_after.
    destruct (str_eqb (type t) (lit "checkbox")); [|exact H].
    destruct (_ || _); [now apply toggled_distinct | exact H].
  - destruct (clickListener s); [|exact H].
    rewrite resetFilters_filters; split; constructor.
Qed.

(** X5. On a page whose filter sets start without repeated values, no
    sequence of events ever puts a value twice into a filter set: a
    checkbox that reports the same value again is not counted twice. *)
Theorem X5_filter_sets_stay_distinct (es : list event) (s : page) :
  distinct_filters (activeFilters s) ->
  distinct_filters (activeFilters (run es s)).
Proof.
  revert s; induction es as [|e es IH]; intros s H; [exact H|].
  cbn [run]; apply IH; now apply dispatch_distinct.
Qed.

Lemma X5_witness :
  distinct_filters
    (activeFilters
       (run [Change (checkbox (lit "dietary") (lit "vegan") true);
             Change (checkbox (lit "dietary") (lit "vegan") true);
             Change (checkbox (lit "category") (lit "rice") true)]
            Scenario.idle)).
Proof.
  apply (X5_filter_sets_stay_distinct
           [Change (checkbox (lit "dietary") (lit "vegan") true);
            Change (checkbox (lit "dietary") (lit "vegan") true);
            Change (checkbox (lit "category") (lit "rice") true)]
           Scenario.idle).
  split; vm_compute; constructor.
Defined.

(** ** How selections combine *)

(** X6. Ticking one more dietary box never adds a recipe to the result:
    every recipe that matches afterwards matched before. *)
Theorem X6_dietary_selection_narrows (f : filters) (v : jsstring)
    (r : recipe) :
  recipe_matches (toggled (lit "dietary") v true f) r = true ->
  recipe_matches f r = true.
Proof.
  rewrite !recipe_matches_spec; unfold toggled.
  rewrite dietary_is_not_category; cbn [activeCategory activeDietary].
  intros [Hc Hd]; split; [exact Hc|].
  right; intros d Hin.
  destruct Hd as [Hd|Hd].
  - unfold StrSet.add in Hd; destruct (StrSet.has _ v);
      [rewrite Hd in Hin; destruct Hin
      | destruct (activeDietary f); discriminate].
  - apply Hd; unfold StrSet.add; destruct (StrSet.has _ v); trivial.
    apply in_or_app; now left.
Qed.

Lemma X6_witness :
  recipe_matches (activeFilters Scenario.main_dish_selected)
                 Scenario.recipeA = true.
Proof.
  apply (X6_dietary_selection_narrows
           (activeFilters Scenario.main_dish_selected) (lit "halal")
           Scenario.recipeA).
  vm_compute; reflexivity.
Defined.

(** X7. With at least one category already selected, ticking one more
    category box never removes a recipe from the result. *)
Theorem X7_category_selection_widens (f : filters) (v : jsstring)
    (r : recipe) :
  activeCategory f <> [] ->
  recipe_matches f r = true ->
  recipe_matches (toggled (lit "category") v true f) r = true.
Proof.
  rewrite !recipe_matches_spec; unfold toggled.
  rewrite str_eqb_refl; cbn [activeCategory activeDietary].
  intros Hne [Hc Hd]; split; [|exact Hd].
  right; destruct Hc as [Hc|Hc]; [contradiction|].
  unfold StrSet.add; destruct (StrSet.has _ v); trivial.
  apply in_or_app; now left.
Qed.

Lemma X7_witness :
  recipe_matches (toggled (lit "category") (lit "rice") true
                    (activeFilters Scenario.main_dish_selected))
                 Scenario.recipeA = true.
Proof.
  apply (X7_category_selection_widens
           (activeFilters Scenario.main_dish_selected) (lit "rice")
           Scenario.recipeA).
  - vm_compute; discriminate.
  - vm_compute; reflexivity.
Defined.

Lemma same_members_nil (a b : StrSet.t) :
  same_members a b -> (a = [] <-> b = []).
Proof.
  intros H; split; intros ->.
  - destruct b as [|x b]; [reflexivity|].
    destruct (proj2 (H x)); now left.
  - destruct a as [|x a]; [reflexivity|].
    destruct (proj1 (H x)); now left.
Qed.

Lemma filter_same_members (f g : filters) (rs : list recipe) :
  same_members (activeCategory f) (activeCategory g) ->
  same_members (activeDietary f) (activeDietary g) ->
  filter (recipe_matches f) rs = filter (recipe_matches g) rs.
Proof.
  intros Hc Hd; apply filter_ext; intros r.
  apply eq_true_iff_eq; rewrite !recipe_matches_spec.
  rewrite (same_members_nil _ _ Hc), (same_members_nil _ _ Hd).
  unfold incl; split; intros [[H1|H1] [H2|H2]]; split; auto;
    right; try (now apply Hc); intros d Hin; apply H2; now apply Hd.
Qed.

(** X8. The result depends on which values are selected, not on the
    order in which they were ticked: two filter states with the same
    members select the same recipes. *)
Theorem X8_result_ignores_selection_order (f g : filters) (s : page) :
  same_members (activeCategory f) (activeCategory g) ->
  same_members (activeDietary f) (activeDietary g) ->
  filteredRecipes (set_activeFilters f s) =
  filteredRecipes (set_activeFilters g s).
Proof.
  intros Hc Hd; unfold filteredRecipes.
  rewrite !allRecipes_set, !activeFilters_set.
  now apply filter_same_members.
Qed.

Lemma X8_witness :
  filteredRecipes
    (set_activeFilters
       {| activeCategory := []; activeDietary := [lit "vegan"; lit "halal"] |}
       Scenario.idle) =
  filteredRecipes
    (set_activeFilters
       {| activeCategory := []; activeDietary := [lit "halal"; lit "vegan"] |}
       Scenario.idle).
Proof.
  apply (X8_result_ignores_selection_order
           {| activeCategory := [];
              activeDietary := [lit "vegan"; lit "halal"] |}
           {| activeCategory := [];
              activeDietary := [lit "halal"; lit "vegan"] |}
           Scenario.idle).
  - intros x; reflexivity.
  - intros x; simpl; tauto.
Defined.

(** ** After a change event *)

Lemma toggle_state (ft v : jsstring) (on : bool) (s : page) :
  ft = lit "category" \/ ft = lit "dietary" ->
  results_anchors s = true ->
  completes (toggle ft v on s) = true /\
  activeFilters (state_of (toggle ft v on s)) =
    toggled ft v on (activeFilters s) /\
  allRecipes (state_of (toggle ft v on s)) = allRecipes s /\
  view_of (state_of (toggle ft v on s)) =
    refresh_view (toggled ft v on (activeFilters s)) (allRecipes s)
                 (view_of s) /\
  activeFiltersCountSpan (state_of (toggle ft v on s)) =
    label_for (toggled ft v on (activeFilters s)) (activeFiltersCountSpan s) /\
  results_anchors (state_of (toggle ft v on s)) = true.
Proof.
  intros Hft Ha; rewrite toggle_refreshed by assumption.
  unfold state_of, completes; cbn [fst snd].
  rewrite refreshed_activeFilters, allRecipes_refreshed, view_refreshed,
    label_refreshed, activeFilters_set, allRecipes_set, view_set, label_set.
  repeat split.
  apply refreshed_anchors; destruct s; exact Ha.
Qed.

(** X9. After a change event of a category or dietary checkbox, on a page
    with the results section, grid and count element, exactly one of the
    two views is shown: with some filter active the results section is
    displayed, every original section is hidden, and the grid and the count
    hold the matches of the new filter state; with none active the results
    section is hidden, every original section is displayed and the grid
    and count are left as they were. *)
Theorem X9_one_view_is_shown (ft v : jsstring) (on : bool) (s : page) :
  ft = lit "category" \/ ft = lit "dietary" ->
  results_anchors s = true ->
  (hasActiveFilters (activeFilters (state_of (toggle ft v on s))) = true ->
   filteredResultsSection (state_of (toggle ft v on s)) = Some (lit "block") /\
   originalRecipeSections (state_of (toggle ft v on s)) =
     map (fun _ => lit "none") (originalRecipeSections s) /\
   filteredResultsGrid (state_of (toggle ft v on s)) =
     Some (displayed (filteredRecipes (state_of (toggle ft v on s)))) /\
   resultCountSpan (state_of (toggle ft v on s)) =
     Some (Number_toString
             (List.length (filteredRecipes (state_of (toggle ft v on s)))))) /\
  (hasActiveFilters (activeFilters (state_of (toggle ft v on s))) = false ->
   filteredResultsSection (state_of (toggle ft v on s)) = Some (lit "none") /\
   originalRecipeSections (state_of (toggle ft v on s)) =
     map (fun _ => lit "block") (originalRecipeSections s) /\
   filteredResultsGrid (state_of (toggle ft v on s)) =
     filteredResultsGrid s /\
   resultCountSpan (state_of (toggle ft v on s)) = resultCountSpan s).
Proof.
  intros Hft Ha.
  destruct (toggle_state ft v on s Hft Ha) as (_ & Hf & Hr & Hv & _).
  unfold filteredRecipes; rewrite Hf, Hr.
  unfold view_of, refresh_view in Hv.
  split; intros Hact; rewrite Hact in Hv; injection Hv as -> -> -> ->;
    repeat split.
Qed.

Lemma X9_witness :
  filteredResultsSection
    (state_of (toggle (lit "category") (lit "main-dish") false
                 Scenario.main_dish_selected)) = Some (lit "none") /\
  originalRecipeSections
    (state_of (toggle (lit "category") (lit "main-dish") false
                 Scenario.main_dish_selected)) =
    map (fun _ => lit "block")
        (originalRecipeSections Scenario.main_dish_selected).
Proof.
  destruct (X9_one_view_is_shown (lit "category") (lit "main-dish") false
              Scenario.main_dish_selected) as (_ & Hidle).
  - left; reflexivity.
  - reflexivity.
  - destruct Hidle as (H1 & H2 & _); [vm_compute; reflexivity|].
    split; [exact H1 | exact H2].
Defined.

Lemma hasActive_total (f : filters) :
  hasActiveFilters f =
  negb (StrSet.size (activeCategory f) + StrSet.size (activeDietary f) =? 0).
Proof.
  unfold hasActiveFilters.
  destruct (StrSet.size (activeCategory f)), (StrSet.size (activeDietary f));
    reflexivity.
Qed.

(** X10. After such a change event the active-filter label, where the
    page has one, is empty when no filter is active and otherwise reads the
    number of selected values (categories plus dietary tags) followed by
    [ filter(s) active]. *)
Theorem X10_label_counts_selected_values (ft v : jsstring) (on : bool)
    (s : page) (l : jsstring) :
  ft = lit "category" \/ ft = lit "dietary" ->
  results_anchors s = true ->
  activeFiltersCountSpan s = Some l ->
  (hasActiveFilters (activeFilters (state_of (toggle ft v on s))) = false ->
   activeFiltersCountSpan (state_of (toggle ft v on s)) =
     Some (lit EmptyString)) /\
  (hasActiveFilters (activeFilters (state_of (toggle ft v on s))) = true ->
   activeFiltersCountSpan (state_of (toggle ft v on s)) =
     Some (concat
             (Number_toString
                (StrSet.size
                   (activeCategory
                      (activeFilters (state_of (toggle ft v on s)))) +
                 StrSet.size
                   (activeDietary
                      (activeFilters (state_of (toggle ft v on s))))))
             (lit " filter(s) active"))).
Proof.
  intros Hft Ha Hl.
  destruct (toggle_state ft v on s Hft Ha) as (_ & Hf & _ & _ & Hlab & _).
  rewrite Hlab, Hf, Hl, hasActive_total; unfold label_for; cbv zeta.
  split; intros H; destruct (_ =? 0); try discriminate; reflexivity.
Qed.

Lemma X10_witness :
  activeFiltersCountSpan
    (state_of (toggle (lit "dietary") (lit "vegan") true
                 Scenario.main_dish_selected)) =
  Some (lit "2 filter(s) active").
Proof.
  destruct (X10_label_counts_selected_values (lit "dietary") (lit "vegan")
              true Scenario.main_dish_selected (lit "1 filter(s) active"))
    as (_ & H).
  - right; reflexivity.
  - reflexivity.
  - vm_compute; reflexivity.
  - exact (H eq_refl).
Defined.

(** X11. A change event from a control that is not a checkbox is ignored;
    a change event from a checkbox whose name is neither [category] nor
    [dietary] makes the handler throw before anything is changed. *)
Theorem X11_other_controls (t : input) (s : page) :
  (type t <> lit "checkbox" -> handleFilterChange t s = (Normal tt, s)) /\
  (type t = lit "checkbox" ->
   name t <> lit "category" -> name t <> lit "dietary" ->
   handleFilterChange t s = (Throw TypeError, s)).
Proof.
  unfold handleFilterChange; split.
  - intros H; apply str_eqb_neq in H; now rewrite H.
  - intros Ht Hc Hd; rewrite Ht, str_eqb_refl; cbn [negb].
    apply str_eqb_neq in Hc, Hd.
    unfold bind at 1.
    destruct (checked t); unfold filters_update, bind, get;
      rewrite Hc, Hd; reflexivity.
Qed.

Lemma X11_witness :
  handleFilterChange (checkbox (lit "ingredients") (lit "tofu") true)
    Scenario.idle = (Throw TypeError, Scenario.idle) /\
  handleFilterChange
    {| type := lit "text"; name := lit "category"; value := lit "rice";
       checked := false |} Scenario.idle = (Normal tt, Scenario.idle).
Proof.
  split.
  - apply (X11_other_controls
             (checkbox (lit "ingredients") (lit "tofu") true) Scenario.idle);
      [reflexivity | |]; intros H; vm_compute in H; discriminate H.
  - apply (X11_other_controls
             {| type := lit "text"; name := lit "category";
                value := lit "rice"; checked := false |} Scenario.idle).
    intros H; vm_compute in H; discriminate H.
Defined.

Lemma add_twice (st : StrSet.t) (x : jsstring) :
  StrSet.add (StrSet.add st x) x = StrSet.add st x.
Proof.
  unfold StrSet.add at 1.
  replace (StrSet.has (StrSet.add st x) x) with true; [reflexivity|].
  symmetry; apply has_In; unfold StrSet.add.
  destruct (StrSet.has st x) eqn:E; [now apply has_In|].
  apply in_or_app; right; now left.
Qed.

Lemma delete_twice (st : StrSet.t) (x : jsstring) :
  StrSet.delete (StrSet.delete st x) x = StrSet.delete st x.
Proof.
  unfold StrSet.delete; induction st as [|y st IH]; [reflexivity|].
  cbn [filter]; destruct (negb (str_eqb x y)) eqn:E; [|exact IH].
  cbn [filter]; rewrite E, IH; reflexivity.
Qed.

Lemma toggled_twice ft v on f :
  toggled ft v on (toggled ft v on f) = toggled ft v on f.
Proof.
  unfold toggled.
  destruct (str_eqb ft (lit "category")), on;
    cbn [activeCategory activeDietary];
    now rewrite ?add_twice, ?delete_twice.
Qed.

Lemma refresh_view_twice f rs w :
  refresh_view f rs (refresh_view f rs w) = refresh_view f rs w.
Proof.
  unfold refresh_view; destruct (hasActiveFilters f);
    cbn [shown count results_display originals_display];
    now rewrite map_map.
Qed.

(** X12. A change event that reports the state a checkbox already had
    (ticked again, or cleared again) changes nothing more: the filter
    state, the grid, the count, the display of the sections and the label
    are as after the first event. *)
Theorem X12_repeated_change_is_absorbed (ft v : jsstring) (on : bool)
    (s : page) :
  ft = lit "category" \/ ft = lit "dietary" ->
  results_anchors s = true ->
  activeFilters (state_of (toggle ft v on (state_of (toggle ft v on s)))) =
    activeFilters (state_of (toggle ft v on s)) /\
  view_of (state_of (toggle ft v on (state_of (toggle ft v on s)))) =
    view_of (state_of (toggle ft v on s)) /\
  activeFiltersCountSpan
    (state_of (toggle ft v on (state_of (toggle ft v on s)))) =
    activeFiltersCountSpan (state_of (toggle ft v on s)).
Proof.
  intros Hft Ha.
  destruct (toggle_state ft v on s Hft Ha) as (_ & Hf & Hr & Hv & Hl & Ha1).
  destruct (toggle_state ft v on _ Hft Ha1) as (_ & Hf2 & _ & Hv2 & Hl2 & _).
  rewrite Hf2, Hv2, Hl2, Hf, Hr, Hv, Hl, toggled_twice.
  now rewrite refresh_view_twice, label_for_twice.
Qed.

Lemma X12_witness :
  view_of (state_of (toggle (lit "category") (lit "main-dish") true
             (state_of (toggle (lit "category") (lit "main-dish") true
                          Scenario.idle)))) =
  view_of (state_of (toggle (lit "category") (lit "main-dish") true
                       Scenario.idle)).
Proof.
  destruct (X12_repeated_change_is_absorbed (lit "category")
              (lit "main-dish") true Scenario.idle) as (_ & Hv & _).
  - left; reflexivity.
  - reflexivity.
  - exact Hv.
Defined.

(** X13. When categories are selected and no stored recipe carries any of
    them, the recompute completes with an empty grid and the count [0],
    the results section shown and the original sections hidden. *)
Theorem X13_no_match_shows_empty_results (s : page) :
  results_anchors s = true ->
  activeCategory (activeFilters s) <> [] ->
  (forall r, In r (allRecipes s) ->
             ~ In (category r) (activeCategory (activeFilters s))) ->
  completes (recompute s) = true /\
  view_of (state_of (recompute s)) =
    {| shown := Some [];
       count := Some (lit "0");
       results_display := Some (lit "block");
       originals_display :=
         map (fun _ => lit "none") (originalRecipeSections s) |}.
Proof.
  intros Ha Hne Hnone.
  assert (Hact : hasActiveFilters (activeFilters s) = true).
  { unfold hasActiveFilters, StrSet.size.
    destruct (activeCategory (activeFilters s)); [congruence|reflexivity]. }
  assert (Hempty : filter (recipe_matches (activeFilters s)) (allRecipes s)
                   = []).
  { assert (H : forall l, incl l (allRecipes s) ->
                  filter (recipe_matches (activeFilters s)) l = []).
    { induction l as [|r l IH]; intros Hl; [reflexivity|].
      cbn [filter].
      destruct (recipe_matches (activeFilters s) r) eqn:E.
      - apply recipe_matches_spec in E as [[Hc|Hc] _]; [contradiction|].
        exfalso; apply (Hnone r); [apply Hl; now left | exact Hc].
      - apply IH; intros x Hx; apply Hl; now right. }
    apply H, incl_refl. }
  split.
  - unfold recompute; rewrite applyFilters_eq, Hact,
      displayFilteredResults_eq.
    unfold results_anchors in Ha.
    destruct (filteredResultsSection s), (filteredResultsGrid s),
      (resultCountSpan s); try discriminate; reflexivity.
  - rewrite view_recompute by assumption.
    unfold refresh_view; rewrite Hact, Hempty; reflexivity.
Qed.

Lemma X13_witness :
  view_of (state_of (recompute
             (set_activeFilters
                {| activeCategory := [lit "dessert"]; activeDietary := [] |}
                Scenario.idle))) =
  {| shown := Some [];
     count := Some (lit "0");
     results_display := Some (lit "block");
     originals_display :=
       map (fun _ => lit "none")
           (originalRecipeSections
              (set_activeFilters
                 {| activeCategory := [lit "dessert"]; activeDietary := [] |}
                 Scenario.idle)) |}.
Proof.
  apply (X13_no_match_shows_empty_results
           (set_activeFilters
              {| activeCategory := [lit "dessert"]; activeDietary := [] |}
              Scenario.idle)).
  - reflexivity.
  - discriminate.
  - intros r Hr; vm_compute in Hr.
    destruct Hr as [<-|[<-|[]]]; vm_compute; intuition discriminate.
Defined.

Lemma uncheck_twice (i : input) : uncheck (uncheck i) = uncheck i.
Proof.
  unfold uncheck; destruct (str_eqb (type i) (lit "checkbox")) eqn:E;
    cbn [type]; now rewrite E.
Qed.

(** X14. On a page with the filter form and the results section a second
    reset completes like the first and changes nothing but the scroll: the
    filter state, the form controls, the grid, the count, the display of
    the sections and the label stay as the first reset left them. *)
Theorem X14_reset_twice (s : page) :
  is_some (filterForm s) && is_some (filteredResultsSection s) = true ->
  completes (reset (state_of (reset s))) = true /\
  activeFilters (state_of (reset (state_of (reset s)))) =
    activeFilters (state_of (reset s)) /\
  filterForm (state_of (reset (state_of (reset s)))) =
    filterForm (state_of (reset s)) /\
  view_of (state_of (reset (state_of (reset s)))) =
    view_of (state_of (reset s)) /\
  activeFiltersCountSpan (state_of (reset (state_of (reset s)))) =
    activeFiltersCountSpan (state_of (reset s)).
Proof.
  intros H; unfold reset; rewrite !resetFilters_eq.
  destruct s as [rs f els nn form sec grid cnt btn lbl orig hd cl kl eff].
  cbn [filterForm filteredResultsSection is_some] in H.
  destruct form as [controls|], sec as [d|]; try discriminate.
  cbn [filterForm filteredResultsSection activeFiltersCountSpan
       filterHeading originalRecipeSections effects].
  unfold view_of, state_of, completes.
  destruct lbl, hd; cbn -[lit uncheck];
    rewrite !map_map;
    rewrite (map_ext _ _ uncheck_twice);
    repeat split.
Qed.

Lemma X14_witness :
  view_of (state_of (reset (state_of (reset Scenario.main_dish_selected)))) =
  view_of (state_of (reset Scenario.main_dish_selected)).
Proof.
  destruct (X14_reset_twice Scenario.main_dish_selected)
    as (_ & _ & _ & Hv & _).
  - reflexivity.
  - exact Hv.
Defined.

(** ** Sequences of operations *)

Lemma anchors_results (s s' : page) :
  anchors_of s' = anchors_of s -> results_anchors s' = results_anchors s.
Proof.
  unfold anchors_of, results_anchors; intros H.
  injection H as _ H1 H2 H3 _ _ _ _; now rewrite H1, H2, H3.
Qed.

Lemma view_after_tick (ft v : jsstring) (s : page) :
  ft = lit "category" \/ ft = lit "dietary" ->
  results_anchors s = true ->
  view_of (state_of (toggle ft v true s)) =
  {| shown := Some (displayed (filter
                (recipe_matches (toggled ft v true (activeFilters s)))
                (allRecipes s)));
     count := Some (Number_toString (List.length (filter
                (recipe_matches (toggled ft v true (activeFilters s)))
                (allRecipes s))));
     results_display := Some (lit "block");
     originals_display :=
       repeat (lit "none") (List.length (originalRecipeSections s)) |}.
Proof.
  intros Hft Ha.
  destruct (toggle_state ft v true s Hft Ha) as (_ & _ & _ & Hv & _).
  rewrite Hv; unfold refresh_view; rewrite hasActive_toggled_on.
  now rewrite map_const.
Qed.

(** X19. A reset forgets the history of the page: on a page that was set
    up with no filter selected, ticking a box right after a reset, whatever
    events came before, shows the same grid, count, section display and
    label as ticking that box right after initialization. *)
Theorem X19_reset_forgets_history (s0 : page) (es : list event)
    (ft v : jsstring) :
  ft = lit "category" \/ ft = lit "dietary" ->
  results_anchors s0 = true ->
  activeFilters s0 = no_filters ->
  view_of (state_of (toggle ft v true (state_of (reset (after s0 es))))) =
    view_of (state_of (toggle ft v true (state_of (setup s0)))) /\
  activeFiltersCountSpan
    (state_of (toggle ft v true (state_of (reset (after s0 es))))) =
    activeFiltersCountSpan
      (state_of (toggle ft v true (state_of (setup s0)))).
Proof.
  intros Hft Ha0 Hf0.
  destruct (setup_state s0) as (_ & _ & Hfs & Has).
  pose proof (run_frame es (state_of (setup s0))) as Hrun.
  fold (after s0 es) in Hrun.
  pose proof (resetFilters_frame (after s0 es)) as Hres.
  fold (reset (after s0 es)) in Hres.
  pose proof (frame_trans _ _ _ Hrun Hres) as (Hr & Han & _).
  assert (Ha1 : results_anchors (state_of (setup s0)) = true)
    by (rewrite (anchors_results _ _ Has); exact Ha0).
  assert (Ha2 : results_anchors (state_of (reset (after s0 es))) = true)
    by (rewrite (anchors_results _ _ Han); exact Ha1).
  assert (Hfr : activeFilters (state_of (reset (after s0 es))) =
                activeFilters (state_of (setup s0))).
  { unfold reset; rewrite resetFilters_filters, Hfs, Hf0; reflexivity. }
  split.
  - rewrite !view_after_tick by assumption.
    rewrite Hfr, Hr.
    replace (List.length (originalRecipeSections
                            (state_of (reset (after s0 es)))))
      with (List.length (originalRecipeSections (state_of (setup s0))));
      [reflexivity|].
    now injection Han.
  - destruct (toggle_state ft v true _ Hft Ha1) as (_ & _ & _ & _ & -> & _).
    destruct (toggle_state ft v true _ Hft Ha2) as (_ & _ & _ & _ & -> & _).
    rewrite Hfr; unfold label_for.
    assert (Hl : is_some (activeFiltersCountSpan
                            (state_of (reset (after s0 es)))) =
                 is_some (activeFiltersCountSpan (state_of (setup s0))))
      by now injection Han.
    destruct (activeFiltersCountSpan (state_of (reset (after s0 es)))),
      (activeFiltersCountSpan (state_of (setup s0)));
      try discriminate; reflexivity.
Qed.

Lemma X19_witness :
  view_of (state_of (toggle (lit "dietary") (lit "gluten-free") true
     (state_of (reset
        (after three_cards
           [Change (checkbox (lit "category") (lit "main-dish") true);
            Change (checkbox (lit "dietary") (lit "vegan") true)]))))) =
  view_of (state_of (toggle (lit "dietary") (lit "gluten-free") true
                       (state_of (setup three_cards)))).
Proof.
  apply (X19_reset_forgets_history three_cards
           [Change (checkbox (lit "category") (lit "main-dish") true);
            Change (checkbox (lit "dietary") (lit "vegan") true)]
           (lit "dietary") (lit "gluten-free")).
  - right; reflexivity.
  - reflexivity.
  - reflexivity.
Defined.

Lemma In_add (st : StrSet.t) (a x : jsstring) :
  In x (StrSet.add st a) <-> In x st \/ x = a.
Proof.
  unfold StrSet.add; destruct (StrSet.has st a) eqn:E.
  - apply has_In in E; split; [auto | intros [H| ->]; trivial].
  - rewrite in_app_iff; cbn; intuition congruence.
Qed.

Lemma In_delete (st : StrSet.t) (a x : jsstring) :
  In x (StrSet.delete st a) <-> In x st /\ x <> a.
Proof.
  unfold StrSet.delete; rewrite filter_In, negb_true_iff, str_eqb_neq.
  intuition congruence.
Qed.

Lemma toggle_set_swap (st : StrSet.t) (a b : jsstring) (on1 on2 : bool) :
  a <> b ->
  same_members
    ((fun t => if on2 then StrSet.add t b else StrSet.delete t b)
       ((fun t => if on1 then StrSet.add t a else StrSet.delete t a) st))
    ((fun t => if on1 then StrSet.add t a else StrSet.delete t a)
       ((fun t => if on2 then StrSet.add t b else StrSet.delete t b) st)).
Proof.
  intros Hab x; destruct on1, on2; cbv beta;
    rewrite ?In_add, ?In_delete, ?In_add, ?In_delete;
    intuition congruence.
Qed.

Lemma same_members_refl (a : StrSet.t) : same_members a a.
Proof. intros x; reflexivity. Qed.

Lemma toggled_swap (ft1 v1 ft2 v2 : jsstring) (on1 on2 : bool)
    (f : filters) :
  ft1 = lit "category" \/ ft1 = lit "dietary" ->
  ft2 = lit "category" \/ ft2 = lit "dietary" ->
  ft1 <> ft2 \/ v1 <> v2 ->
  same_members
    (activeCategory (toggled ft2 v2 on2 (toggled ft1 v1 on1 f)))
    (activeCategory (toggled ft1 v1 on1 (toggled ft2 v2 on2 f))) /\
  same_members
    (activeDietary (toggled ft2 v2 on2 (toggled ft1 v1 on1 f)))
    (activeDietary (toggled ft1 v1 on1 (toggled ft2 v2 on2 f))).
Proof.
  intros [-> | ->] [-> | ->] Hne; unfold toggled;
    rewrite ?str_eqb_refl, ?dietary_is_not_category;
    cbn [activeCategory activeDietary];
    split; try apply same_members_refl;
    apply (toggle_set_swap _ v1 v2 on1 on2);
    destruct Hne as [Hne|Hne]; congruence.
Qed.

Lemma same_members_size (a b : StrSet.t) :
  NoDup a -> NoDup b -> same_members a b -> StrSet.size a = StrSet.size b.
Proof.
  intros Ha Hb H; unfold StrSet.size.
  apply Permutation_length, NoDup_Permutation; assumption.
Qed.

Lemma same_members_active (f g : filters) :
  same_members (activeCategory f) (activeCategory g) ->
  same_members (activeDietary f) (activeDietary g) ->
  hasActiveFilters f = hasActiveFilters g.
Proof.
  intros Hc Hd; apply same_members_nil in Hc, Hd.
  unfold hasActiveFilters, StrSet.size.
  destruct (activeCategory f), (activeCategory g), (activeDietary f),
    (activeDietary g); try reflexivity;
    try (destruct Hc as [Hc1 Hc2]; (now discriminate Hc1) || (now discriminate Hc2));
    try (destruct Hd as [Hd1 Hd2]; (now discriminate Hd1) || (now discriminate Hd2)).
Qed.

Lemma two_changes_state (ft1 v1 : jsstring) (on1 : bool)
    (ft2 v2 : jsstring) (on2 : bool) (s : page) :
  ft1 = lit "category" \/ ft1 = lit "dietary" ->
  ft2 = lit "category" \/ ft2 = lit "dietary" ->
  results_anchors s = true ->
  activeFilters (two_changes ft1 v1 on1 ft2 v2 on2 s) =
    toggled ft2 v2 on2 (toggled ft1 v1 on1 (activeFilters s)) /\
  allRecipes (two_changes ft1 v1 on1 ft2 v2 on2 s) = allRecipes s /\
  view_of (two_changes ft1 v1 on1 ft2 v2 on2 s) =
    refresh_view (toggled ft2 v2 on2 (toggled ft1 v1 on1 (activeFilters s)))
      (allRecipes s)
      (refresh_view (toggled ft1 v1 on1 (activeFilters s)) (allRecipes s)
         (view_of s)) /\
  activeFiltersCountSpan (two_changes ft1 v1 on1 ft2 v2 on2 s) =
    label_for (toggled ft2 v2 on2 (toggled ft1 v1 on1 (activeFilters s)))
      (activeFiltersCountSpan s).
Proof.
  intros H1 H2 Ha; unfold two_changes.
  destruct (toggle_state ft1 v1 on1 s H1 Ha) as (_ & Hf & Hr & Hv & Hl & Ha1).
  destruct (toggle_state ft2 v2 on2 _ H2 Ha1) as (_ & -> & -> & -> & -> & _).
  now rewrite Hf, Hr, Hv, Hl, label_for_twice.
Qed.

(** X20. The change events of two different checkboxes can come in either
    order: on a page with the results section, grid and count element and
    filter sets without repeated values, both orders leave filter sets with
    the same members, select the same recipes, show the same sections and
    the same label, and, when a filter is active at the end, the same grid
    and count. *)
Theorem X20_changes_of_two_boxes_commute (ft1 v1 : jsstring) (on1 : bool)
    (ft2 v2 : jsstring) (on2 : bool) (s : page) :
  ft1 = lit "category" \/ ft1 = lit "dietary" ->
  ft2 = lit "category" \/ ft2 = lit "dietary" ->
  ft1 <> ft2 \/ v1 <> v2 ->
  results_anchors s = true ->
  distinct_filters (activeFilters s) ->
  same_members
    (activeCategory (activeFilters (two_changes ft1 v1 on1 ft2 v2 on2 s)))
    (activeCategory (activeFilters (two_changes ft2 v2 on2 ft1 v1 on1 s))) /\
  same_members
    (activeDietary (activeFilters (two_changes ft1 v1 on1 ft2 v2 on2 s)))
    (activeDietary (activeFilters (two_changes ft2 v2 on2 ft1 v1 on1 s))) /\
  filteredRecipes (two_changes ft1 v1 on1 ft2 v2 on2 s) =
    filteredRecipes (two_changes ft2 v2 on2 ft1 v1 on1 s) /\
  filteredResultsSection (two_changes ft1 v1 on1 ft2 v2 on2 s) =
    filteredResultsSection (two_changes ft2 v2 on2 ft1 v1 on1 s) /\
  originalRecipeSections (two_changes ft1 v1 on1 ft2 v2 on2 s) =
    originalRecipeSections (two_changes ft2 v2 on2 ft1 v1 on1 s) /\
  activeFiltersCountSpan (two_changes ft1 v1 on1 ft2 v2 on2 s) =
    activeFiltersCountSpan (two_changes ft2 v2 on2 ft1 v1 on1 s) /\
  (hasActiveFilters
     (activeFilters (two_changes ft1 v1 on1 ft2 v2 on2 s)) = true ->
   view_of (two_changes ft1 v1 on1 ft2 v2 on2 s) =
     view_of (two_changes ft2 v2 on2 ft1 v1 on1 s)).
Proof.
  intros H1 H2 Hne Ha Hd.
  destruct (two_changes_state ft1 v1 on1 ft2 v2 on2 s H1 H2 Ha)
    as (Hfa & Hra & Hva & Hla).
  destruct (two_changes_state ft2 v2 on2 ft1 v1 on1 s H2 H1 Ha)
    as (Hfb & Hrb & Hvb & Hlb).
  destruct (toggled_swap ft1 v1 ft2 v2 on1 on2 (activeFilters s) H1 H2 Hne)
    as (Hc & Hdi).
  set (Fa := toggled ft2 v2 on2 (toggled ft1 v1 on1 (activeFilters s))) in *.
  set (Fb := toggled ft1 v1 on1 (toggled ft2 v2 on2 (activeFilters s))) in *.
  pose proof (same_members_active Fa Fb Hc Hdi) as Hact.
  pose proof (filter_same_members Fa Fb (allRecipes s) Hc Hdi) as Hfil.
  assert (Hda : distinct_filters Fa) by (repeat apply toggled_distinct; exact Hd).
  assert (Hdb : distinct_filters Fb) by (repeat apply toggled_distinct; exact Hd).
  assert (Hlab : forall l, label_for Fa l = label_for Fb l).
  { intros l; unfold label_for.
    rewrite (same_members_size _ _ (proj1 Hda) (proj1 Hdb) Hc),
      (same_members_size _ _ (proj2 Hda) (proj2 Hdb) Hdi); reflexivity. }
  assert (Hvis : results_display (view_of (two_changes ft1 v1 on1 ft2 v2 on2 s))
                 = results_display (view_of (two_changes ft2 v2 on2 ft1 v1 on1 s))
              /\ originals_display (view_of (two_changes ft1 v1 on1 ft2 v2 on2 s))
                 = originals_display (view_of (two_changes ft2 v2 on2 ft1 v1 on1 s))).
  { rewrite Hva, Hvb; unfold refresh_view; rewrite <- Hact.
    destruct (hasActiveFilters Fa),
      (hasActiveFilters (toggled ft1 v1 on1 (activeFilters s))),
      (hasActiveFilters (toggled ft2 v2 on2 (activeFilters s)));
      cbn [results_display originals_display]; rewrite !map_map; auto. }
  rewrite Hfa, Hfb.
  split; [exact Hc|]. split; [exact Hdi|].
  split; [unfold filteredRecipes; now rewrite Hfa, Hfb, Hra, Hrb|].
  split; [exact (proj1 Hvis)|]. split; [exact (proj2 Hvis)|].
  split; [rewrite Hla, Hlb; apply Hlab|].
  intros Hon; rewrite Hva, Hvb; unfold refresh_view at 1 3.
  rewrite <- Hact, Hon, Hfil; f_equal.
  unfold refresh_view;
    destruct (hasActiveFilters (toggled ft1 v1 on1 (activeFilters s))),
      (hasActiveFilters (toggled ft2 v2 on2 (activeFilters s)));
    cbn [originals_display]; now rewrite !map_map.
Qed.

Lemma X20_witness :
  filteredRecipes
    (two_changes (lit "dietary") (lit "vegan") true
                 (lit "category") (lit "rice") true Scenario.idle) =
  filteredRecipes
    (two_changes (lit "category") (lit "rice") true
                 (lit "dietary") (lit "vegan") true Scenario.idle).
Proof.
  destruct (X20_changes_of_two_boxes_commute
              (lit "dietary") (lit "vegan") true
              (lit "category") (lit "rice") true Scenario.idle)
    as (_ & _ & H & _).
  - right; reflexivity.
  - left; reflexivity.
  - left; intros E; vm_compute in E; discriminate E.
  - reflexivity.
  - split; vm_compute; constructor.
  - exact H.
Defined.

End FilterFacts.

(** * Further properties of the include resolver *)
Module IncludeFacts.
Import JS Includes.

(** X15. The order in which the fetches complete does not matter for the
    page: two completion orders of the same fetches leave the same
    document, and log the same errors up to order. *)
Theorem X15_completion_order_is_irrelevant
    (parse : jsstring -> jsstring -> list dom)
    (network : nat -> fetch_result) (schedule schedule' : list nat)
    (doc : list dom) (log : list error) :
  Permutation schedule schedule' ->
  document (onDOMContentLoaded parse network schedule doc log) =
    document (onDOMContentLoaded parse network schedule' doc log) /\
  Permutation (console (onDOMContentLoaded parse network schedule doc log))
              (console (onDOMContentLoaded parse network schedule' doc log)).
Proof.
  intros Hp; split.
  - rewrite !handler_page.
    apply (fold_step_permutation parse network (issued doc) schedule
             schedule' (issued_targets_NoDup doc) Hp).
  - unfold onDOMContentLoaded; rewrite !complete_console.
    apply Permutation_app_head, Permutation_flat_map, Hp.
Qed.

Lemma X15_witness :
  document (onDOMContentLoaded IncludeScenario.parse
              IncludeScenario.nested_network [0; 1] IncludeScenario.nested
              []) =
  document (onDOMContentLoaded IncludeScenario.parse
              IncludeScenario.nested_network [1; 0] IncludeScenario.nested
              []).
Proof.
  apply (X15_completion_order_is_irrelevant IncludeScenario.parse
           IncludeScenario.nested_network [0; 1] [1; 0]
           IncludeScenario.nested []).
  apply perm_swap.
Defined.

(** X16. The handler and its completions write children only: every
    element that is not inside a placeholder whose fetch has completed is
    still at its place with the tag and the attributes it had (those
    placeholders included), and it has the children it had as well when no
    such placeholder is the element itself or inside it. *)
Theorem X16_only_innerHTML_is_written
    (parse : jsstring -> jsstring -> list dom)
    (network : nat -> fetch_result) (schedule : list nat)
    (doc : list dom) (log : list error)
    (q : path) (tag : jsstring) (attrs : list (jsstring * jsstring))
    (ch : list dom) :
  lookup q doc = Some (Elem tag attrs ch) ->
  (forall k rq, In k schedule -> nth_error (issued doc) k = Some rq ->
     above (target rq) q = false) ->
  (exists ch',
     lookup q (document (onDOMContentLoaded parse network schedule doc log))
     = Some (Elem tag attrs ch')) /\
  ((forall k rq, In k schedule -> nth_error (issued doc) k = Some rq ->
      target rq <> q /\ above q (target rq) = false) ->
   lookup q (document (onDOMContentLoaded parse network schedule doc log))
   = Some (Elem tag attrs ch)).
Proof.
  intros Hq Hout; rewrite handler_page; split.
  - apply (fold_step_label parse network (issued doc) q schedule
             (doc, []) tag attrs ch Hout Hq).
  - intros Hin; rewrite fold_step_apart; [exact Hq|].
    intros k rq Hk Hrq; destruct (Hin k rq Hk Hrq); repeat split; eauto.
Qed.

Lemma X16_witness :
  exists ch',
    lookup [0]
      (document (onDOMContentLoaded IncludeScenario.parse
                   IncludeScenario.network [0; 1] IncludeScenario.loaded []))
    = Some (Elem (lit "body") [(lit "data-root-path", lit "../..")] ch').
Proof.
  destruct (X16_only_innerHTML_is_written IncludeScenario.parse
              IncludeScenario.network [0; 1] IncludeScenario.loaded []
              [0] (lit "body") [(lit "data-root-path", lit "../..")]
              [IncludeScenario.header_placeholder;
               IncludeScenario.empty_placeholder;
               IncludeScenario.footer_placeholder;
               IncludeScenario.home_link]) as (H & _).
  - reflexivity.
  - intros k rq [<-|[<-|[]]] Hrq; vm_compute in Hrq; injection Hrq as <-;
      reflexivity.
  - exact H.
Defined.

(** X17. The handler issues exactly one fetch for each element that has a
    non-empty [data-include], in document order, for the path the
    attribute gives; two placeholders naming the same path get a fetch
    each. *)
Theorem X17_one_fetch_per_placeholder (doc : list dom) :
  issued doc =
  map (fun p => {| target := p;
                   includePath := or_empty (attribute_at doc p data_include) |})
      (filter (has_include doc) (all_paths doc)).
Proof.
  unfold issued, querySelectorAll_attr, has_include.
  induction (all_paths doc) as [|p l IH]; [reflexivity|].
  cbn [filter].
  destruct (attribute_at doc p data_include) as [v|] eqn:E; [|exact IH].
  cbn [flat_map]; unfold issue at 1; rewrite E.
  destruct (truthy v) eqn:Hv; cbn [negb app map]; [|exact IH].
  rewrite IH, E; unfold or_empty; now rewrite Hv.
Qed.

(** X18. When every fetch that completes delivers its text, nothing is
    written to the console. *)
Theorem X18_success_logs_nothing (parse : jsstring -> jsstring -> list dom)
    (network : nat -> fetch_result) (schedule : list nat)
    (doc : list dom) (log : list error) :
  (forall i, In i schedule -> delivered (network i) = true) ->
  console (onDOMContentLoaded parse network schedule doc log) = log.
Proof.
  intros Hok; unfold onDOMContentLoaded; rewrite complete_console.
  cbn [console]; rewrite <- (app_nil_r log) at 2; f_equal.
  induction schedule as [|i rest IH]; [reflexivity|].
  cbn [flat_map]; rewrite IH by (intros j Hj; apply Hok; now right).
  destruct (nth_error _ i) as [rq|]; [|reflexivity].
  specialize (Hok i (or_introl eq_refl)).
  destruct (network i) as [e|[|] [html|e]]; try discriminate; reflexivity.
Qed.

Lemma X18_witness :
  console (onDOMContentLoaded IncludeScenario.parse IncludeScenario.network
             [0] IncludeScenario.loaded []) = [].
Proof.
  apply (X18_success_logs_nothing IncludeScenario.parse
           IncludeScenario.network [0] IncludeScenario.loaded []).
  intros i [<-|[]]; reflexivity.
Defined.

End IncludeFacts.
